(** * MVisor device manager: I/O dispatch and GSI routing

    A shallow embedding of [core/device_manager.cc]: the PIO and MMIO
    dispatchers with their move-to-front handler tables, the mirror of
    the kernel's GSI routing table with the MSI route operations, and
    the lookup form of [UnregisterIoEvent].

    The manager is modelled as a record of its members inside a [World]
    that also holds what the code reaches through pointers and system
    calls: the trace of device [Read]/[Write] invocations, the trace of
    [ioctl] requests on the VM descriptor, the descriptors polled by the
    I/O thread and the debug log.  Member functions are computations in
    a state monad whose second outcome is the fatal [MV_PANIC].

    The recursive mutex is not modelled: every function is run to
    completion on one thread, which is the view each caller has of the
    locked regions.  Devices are taken not to call back into the
    manager from [Read] and [Write]: what a device does shows in the
    call trace and in the caller's buffer only. *)

From Stdlib Require Import ZArith Lia Strings.Byte Strings.String.
From stdpp Require Import base option list.

Local Open Scope Z_scope.

(** ** Machine integers *)

Definition uint16_t (z : Z) : Z := z mod 2 ^ 16.
Definition uint32_t (z : Z) : Z := z mod 2 ^ 32.
Definition uint64_t (z : Z) : Z := z mod 2 ^ 64.
(** Conversion to [int] (two's complement, as on every target of KVM). *)
Definition int (z : Z) : Z := (z + 2 ^ 31) mod 2 ^ 32 - 2 ^ 31.

Definition INT_MAX : Z := 2 ^ 31 - 1.

(** ** Constants of <linux/kvm.h> *)

Definition KVM_IRQ_ROUTING_IRQCHIP : Z := 1.
Definition KVM_IRQ_ROUTING_MSI : Z := 2.
Definition KVM_IRQFD_FLAG_DEASSIGN : Z := 1.
Definition KVM_IOEVENTFD_FLAG_DATAMATCH : Z := 1.
Definition KVM_IOEVENTFD_FLAG_PIO : Z := 2.
Definition KVM_IOEVENTFD_FLAG_DEASSIGN : Z := 4.

(** ** Data model *)

Inductive IoResourceType : Type :=
  | kIoResourceTypePio
  | kIoResourceTypeMmio
  | kIoResourceTypeRam.

(** [base] and [length] are 64-bit unsigned in the source. *)
Record IoResource : Type := {
  resource_type : IoResourceType;
  resource_base : Z;
  resource_length : Z;
  resource_name : string;
  resource_enabled : bool
}.

(** Devices and mapped regions are only compared and passed on by the
    manager: a device is its identity. *)
Definition Device : Type := nat.
Definition MemoryRegion : Type := nat.

Record IoHandler : Type := {
  resource : IoResource;
  device : Device;
  memory_region : option MemoryRegion
}.

Inductive IoEventType : Type :=
  | kIoEventPio
  | kIoEventMmio
  | kIoEventFd.

Record IoEvent : Type := {
  event_type : IoEventType;
  event_device : Device;
  event_address : Z;
  event_length : Z;
  event_datamatch : Z;
  event_flags : Z;
  event_fd : Z
}.

(** The union member of a routing entry that was written last. *)
Inductive kvm_irq_routing_u : Type :=
  | u_irqchip (irqchip pin : Z)
  | u_msi (address_lo address_hi data : Z).

Record kvm_irq_routing_entry : Type := {
  entry_gsi : Z;
  entry_type : Z;
  entry_flags : Z;
  entry_u : kvm_irq_routing_u
}.

#[export] Instance IoResourceType_eq_dec : EqDecision IoResourceType.
Proof. solve_decision. Defined.
#[export] Instance IoEventType_eq_dec : EqDecision IoEventType.
Proof. solve_decision. Defined.
#[export] Instance IoEvent_eq_dec : EqDecision IoEvent.
Proof. solve_decision. Defined.

(** ** The world outside the manager *)

(** One invocation of a device's virtual [Read] or [Write].  [ptr] is
    the distance of the buffer pointer handed to the device from the
    start of the caller's [data]; a [Write] records the [size] bytes
    found there. *)
Inductive DeviceCall : Type :=
  | Read (d : Device) (r : IoResource) (offset ptr size : Z)
  | Write (d : Device) (r : IoResource) (offset ptr size : Z)
          (bytes : list byte).

(** Requests issued with [ioctl] on the VM descriptor. *)
Inductive KvmRequest : Type :=
  | KVM_SET_GSI_ROUTING (nr : Z) (entries : list kvm_irq_routing_entry)
  | KVM_IRQFD (fd gsi irqfd_flags : Z)
  | KVM_IOEVENTFD (datamatch addr len fd ioeventfd_flags : Z).

Inductive LogLine : Type :=
  | unhandled_io (is_write : bool) (port size count : Z)
  | unhandled_mmio (is_write : bool) (base size : Z).

Record World : Type := {
  (* members of DeviceManager *)
  pio_handlers_ : list IoHandler;
  mmio_handlers_ : list IoHandler;
  ioevents_ : list IoEvent;
  gsi_routing_table_ : list kvm_irq_routing_entry;
  next_gsi_ : Z;
  (* machine_->debug() *)
  debug : bool;
  (* effects *)
  device_calls : list DeviceCall;
  kvm_requests : list KvmRequest;
  polled_fds : list Z;
  log : list LogLine
}.

Definition with_pio_handlers (f : list IoHandler → list IoHandler) (w : World) : World :=
  {| pio_handlers_ := f (pio_handlers_ w); mmio_handlers_ := mmio_handlers_ w;
     ioevents_ := ioevents_ w; gsi_routing_table_ := gsi_routing_table_ w;
     next_gsi_ := next_gsi_ w; debug := debug w;
     device_calls := device_calls w; kvm_requests := kvm_requests w;
     polled_fds := polled_fds w; log := log w |}.

Definition with_mmio_handlers (f : list IoHandler → list IoHandler) (w : World) : World :=
  {| pio_handlers_ := pio_handlers_ w; mmio_handlers_ := f (mmio_handlers_ w);
     ioevents_ := ioevents_ w; gsi_routing_table_ := gsi_routing_table_ w;
     next_gsi_ := next_gsi_ w; debug := debug w;
     device_calls := device_calls w; kvm_requests := kvm_requests w;
     polled_fds := polled_fds w; log := log w |}.

Definition with_ioevents (f : list IoEvent → list IoEvent) (w : World) : World :=
  {| pio_handlers_ := pio_handlers_ w; mmio_handlers_ := mmio_handlers_ w;
     ioevents_ := f (ioevents_ w); gsi_routing_table_ := gsi_routing_table_ w;
     next_gsi_ := next_gsi_ w; debug := debug w;
     device_calls := device_calls w; kvm_requests := kvm_requests w;
     polled_fds := polled_fds w; log := log w |}.

Definition with_gsi_routing_table
    (f : list kvm_irq_routing_entry → list kvm_irq_routing_entry) (w : World) : World :=
  {| pio_handlers_ := pio_handlers_ w; mmio_handlers_ := mmio_handlers_ w;
     ioevents_ := ioevents_ w; gsi_routing_table_ := f (gsi_routing_table_ w);
     next_gsi_ := next_gsi_ w; debug := debug w;
     device_calls := device_calls w; kvm_requests := kvm_requests w;
     polled_fds := polled_fds w; log := log w |}.

Definition with_next_gsi (f : Z → Z) (w : World) : World :=
  {| pio_handlers_ := pio_handlers_ w; mmio_handlers_ := mmio_handlers_ w;
     ioevents_ := ioevents_ w; gsi_routing_table_ := gsi_routing_table_ w;
     next_gsi_ := f (next_gsi_ w); debug := debug w;
     device_calls := device_calls w; kvm_requests := kvm_requests w;
     polled_fds := polled_fds w; log := log w |}.

Definition with_device_calls (f : list DeviceCall → list DeviceCall) (w : World) : World :=
  {| pio_handlers_ := pio_handlers_ w; mmio_handlers_ := mmio_handlers_ w;
     ioevents_ := ioevents_ w; gsi_routing_table_ := gsi_routing_table_ w;
     next_gsi_ := next_gsi_ w; debug := debug w;
     device_calls := f (device_calls w); kvm_requests := kvm_requests w;
     polled_fds := polled_fds w; log := log w |}.

Definition with_kvm_requests (f : list KvmRequest → list KvmRequest) (w : World) : World :=
  {| pio_handlers_ := pio_handlers_ w; mmio_handlers_ := mmio_handlers_ w;
     ioevents_ := ioevents_ w; gsi_routing_table_ := gsi_routing_table_ w;
     next_gsi_ := next_gsi_ w; debug := debug w;
     device_calls := device_calls w; kvm_requests := f (kvm_requests w);
     polled_fds := polled_fds w; log := log w |}.

Definition with_polled_fds (f : list Z → list Z) (w : World) : World :=
  {| pio_handlers_ := pio_handlers_ w; mmio_handlers_ := mmio_handlers_ w;
     ioevents_ := ioevents_ w; gsi_routing_table_ := gsi_routing_table_ w;
     next_gsi_ := next_gsi_ w; debug := debug w;
     device_calls := device_calls w; kvm_requests := kvm_requests w;
     polled_fds := f (polled_fds w); log := log w |}.

Definition with_log (f : list LogLine → list LogLine) (w : World) : World :=
  {| pio_handlers_ := pio_handlers_ w; mmio_handlers_ := mmio_handlers_ w;
     ioevents_ := ioevents_ w; gsi_routing_table_ := gsi_routing_table_ w;
     next_gsi_ := next_gsi_ w; debug := debug w;
     device_calls := device_calls w; kvm_requests := kvm_requests w;
     polled_fds := polled_fds w; log := f (log w) |}.

(** ** The monad of member functions *)

Inductive Outcome (A : Type) : Type :=
  | Ok (a : A) (w : World)
  | Panic (msg : string) (w : World).
Arguments Ok {A} a w.
Arguments Panic {A} msg w.

Definition M (A : Type) : Type := World → Outcome A.

#[export] Instance M_ret : MRet M := λ A a w, Ok a w.
#[export] Instance M_bind : MBind M := λ A B f m w,
  match m w with
  | Ok a w' => f a w'
  | Panic msg w' => Panic msg w'
  end.

Definition get : M World := λ w, Ok w w.
Definition modify (f : World → World) : M unit := λ w, Ok tt (f w).
Definition when (b : bool) (m : M unit) : M unit := if b then m else mret tt.

(** Modelled from the spec: [MV_PANIC] comes from [logger.h], which is
    not part of the sources at hand; the specification calls every
    failure reported through it fatal, so the computation stops there
    and keeps the world as it was at that point. *)
Definition MV_PANIC {A : Type} (msg : string) : M A := λ w, Panic msg w.

Definition MV_LOG (l : LogLine) : M unit := modify (with_log (λ ls, ls ++ [l])).

(** ** std::deque as used for the handler tables *)

Module deque.
(** A valid iterator is the index, counted from [begin()], of the
    element it designates.  An insertion at either end of a deque
    invalidates every iterator of the deque. *)
Definition iterator : Type := nat.

Definition push_back {A : Type} (x : A) (d : list A) : list A := d ++ [x].
Definition push_front {A : Type} (x : A) (d : list A) : list A := x :: d.

(** [erase] through a valid iterator. *)
Definition erase {A : Type} (it : iterator) (d : list A) : list A := delete it d.
End deque.

(** ** Guest buffers *)

(** [memset(data, c, n)] on a buffer that is at least [n] bytes long;
    bytes past the end of [data] are outside the model. *)
Definition memset (data : list byte) (c : byte) (n : Z) : list byte :=
  replicate (Z.to_nat n `min` length data) c ++ drop (Z.to_nat n) data.

(** The [size] bytes at [data + ptr]. *)
Definition bytes_at (data : list byte) (ptr size : Z) : list byte :=
  take (Z.to_nat size) (drop (Z.to_nat ptr) data).

(** Storing [bytes] at [data + ptr]. *)
Definition store_at (data : list byte) (ptr : Z) (bytes : list byte) : list byte :=
  list_inserts (Z.to_nat ptr) bytes data.

(** ** Handler lookup *)

(** The test of both dispatch loops:
    [addr >= resource->base && addr < resource->base + resource->length],
    in 64-bit unsigned arithmetic. *)
Definition claims (r : IoResource) (addr : Z) : bool :=
  (resource_base r <=? addr) &&
  (addr <? uint64_t (resource_base r + resource_length r)).

(** The [for] loop over a handler table: the first handler from
    [handlers] on whose resource claims [addr], with the value of
    [it_count] when the loop reaches it. *)
Fixpoint lookup_handler (addr : Z) (handlers : list IoHandler) (it_count : nat)
    : option (nat * IoHandler) :=
  match handlers with
  | [] => None
  | h :: rest =>
      if claims (resource h) addr then Some (it_count, h)
      else lookup_handler addr rest (S it_count)
  end.

Section DeviceManager.

(** The dispatch loops call [push_front( *it )] and then [erase(it)] with
    the iterator [it] they stopped at, which the [push_front] has
    invalidated.  What [erase] does with such an iterator is not
    defined by the language: it depends on the library and on how the
    deque lies in memory at that moment.  It is a parameter here: the
    table [erase(it)] leaves, given the state of the manager at the
    call, the index [it] had when it was valid and the table as
    [push_front] left it. *)
Variable erase_invalidated : World → deque.iterator → list IoHandler → list IoHandler.

(** "Move to the front for faster access next time":
    [push_front( *it ); erase(it); --it], called in world [w]. *)
Definition move_to_front (w : World) (it : deque.iterator) (h : IoHandler)
    (handlers : list IoHandler) : list IoHandler :=
  erase_invalidated w it (deque.push_front h handlers).

(** The bytes a device stores into the caller's buffer on [Read]: a
    function of the device calls made so far and of the arguments of
    this one. *)
Variable read_result : list DeviceCall → Device → IoResource → Z → Z → list byte.

(** The kernel: the value [ioctl] returns for a request, given the
    requests made before. *)
Variable kvm_ioctl : list KvmRequest → KvmRequest → Z.

Definition ioctl (req : KvmRequest) : M Z := λ w,
  Ok (kvm_ioctl (kvm_requests w) req)
     (with_kvm_requests (λ rs, rs ++ [req]) w).

(** [device->Read(resource, offset, data + ptr, size)] *)
Definition Device_Read (d : Device) (r : IoResource) (offset : Z)
    (data : list byte) (ptr size : Z) : M (list byte) :=
  w ← get;
  let bytes := take (Z.to_nat size) (read_result (device_calls w) d r offset size) in
  modify (with_device_calls (λ cs, cs ++ [Read d r offset ptr size]));;
  mret (store_at data ptr bytes).

(** [device->Write(resource, offset, data + ptr, size)] *)
Definition Device_Write (d : Device) (r : IoResource) (offset : Z)
    (data : list byte) (ptr size : Z) : M (list byte) :=
  modify (with_device_calls
            (λ cs, cs ++ [Write d r offset ptr size (bytes_at data ptr size)]));;
  mret data.

(** *** Registering handlers *)

(** [memory_manager()->Map(base, length, nullptr, kMemoryTypeDevice, name)]:
    the memory manager is outside the sources at hand, the region it
    returns is only stored in the handler. *)
Variable Map : Z → Z → string → MemoryRegion.

Definition RegisterIoHandler (d : Device) (r : IoResource) : M unit :=
  match resource_type r with
  | kIoResourceTypePio =>
      modify (with_pio_handlers
                (deque.push_back {| resource := r; device := d; memory_region := None |}))
  | kIoResourceTypeMmio =>
      let region := Map (resource_base r) (resource_length r) (resource_name r) in
      modify (with_mmio_handlers
                (deque.push_back
                   {| resource := r; device := d; memory_region := Some region |}))
  | kIoResourceTypeRam => mret tt
  end.

(** The loop of [UnregisterIoHandler]: erase the first handler of the
    device whose resource has the same base. *)
Definition unregister (d : Device) (r : IoResource) (handlers : list IoHandler)
    : list IoHandler :=
  match list_find (λ h, device h = d ∧ resource_base (resource h) = resource_base r)
          handlers with
  | Some (it, _) => deque.erase it handlers
  | None => handlers
  end.

Definition UnregisterIoHandler (d : Device) (r : IoResource) : M unit :=
  match resource_type r with
  | kIoResourceTypePio => modify (with_pio_handlers (unregister d r))
  | kIoResourceTypeMmio => modify (with_mmio_handlers (unregister d r))
  | kIoResourceTypeRam => mret tt
  end.

(** *** HandleIo *)

(** [for (uint32_t i = 0; i < count; i++) { ...; ptr += size; }] with
    [n] iterations left. *)
Fixpoint pio_transfer (n : nat) (d : Device) (r : IoResource) (port : Z)
    (is_write : Z) (size : Z) (ptr : Z) (data : list byte) : M (list byte) :=
  match n with
  | O => mret data
  | S n' =>
      data' ← (if negb (is_write =? 0)
               then Device_Write d r (uint64_t (port - resource_base r)) data ptr size
               else Device_Read d r (uint64_t (port - resource_base r)) data ptr size);
      pio_transfer n' d r port is_write size (ptr + size) data'
  end.

(** [port] and [size] are [uint16_t], [is_write] is [int] and [count]
    is [uint32_t]; the result is [data] as the call leaves it.  The
    timing of slow accesses, which only feeds the debug log, is left
    out. *)
Definition HandleIo (port : Z) (data : list byte) (size : Z) (is_write : Z)
    (count : Z) (ioeventfd : bool) : M (list byte) :=
  w ← get;
  match lookup_handler port (pio_handlers_ w) 0 with
  | Some (it_count, h) =>
      when (3 <=? it_count)%nat
        (modify (with_pio_handlers (move_to_front w it_count h)));;
      pio_transfer (Z.to_nat count) (device h) (resource h) port is_write size 0 data
  | None =>
      (* Accessing invalid port always returns error *)
      let data' := memset data xff size in
      when (debug w)
        (MV_LOG (unhandled_io (negb (is_write =? 0)) port size count));;
      mret data'
  end.

(** *** HandleMmio *)

Definition HandleMmio (base : Z) (data : list byte) (size : Z) (is_write : Z)
    (ioeventfd : bool) : M (list byte) :=
  w ← get;
  match lookup_handler base (mmio_handlers_ w) 0 with
  | Some (it_count, h) =>
      when (3 <=? it_count)%nat
        (modify (with_mmio_handlers (move_to_front w it_count h)));;
      if negb (is_write =? 0)
      then Device_Write (device h) (resource h)
             (uint64_t (base - resource_base (resource h))) data 0 size
      else Device_Read (device h) (resource h)
             (uint64_t (base - resource_base (resource h))) data 0 size
  | None =>
      when (debug w)
        (MV_LOG (unhandled_mmio (negb (is_write =? 0)) base size));;
      mret data
  end.

(** *** The GSI routing mirror *)

(** Since the routing table cannot be read back from KVM, the whole
    copy is handed to it after every change. *)
Definition UpdateGsiRoutingTable : M unit :=
  w ← get;
  let table := gsi_routing_table_ w in
  ret ← ioctl (KVM_SET_GSI_ROUTING (Z.of_nat (length table)) table);
  if negb (ret =? 0) then MV_PANIC "KVM_SET_GSI_ROUTING" else mret tt.

Definition add_irq_routing (gsi chip pin : Z) : M unit :=
  let entry := {| entry_gsi := gsi;
                  entry_type := KVM_IRQ_ROUTING_IRQCHIP;
                  entry_flags := 0;
                  entry_u := u_irqchip chip pin |} in
  modify (with_gsi_routing_table (λ table, table ++ [entry])).

(** [for (uint i = i0; i < i0 + n; i++) body(i)] *)
Fixpoint for_uint (i : Z) (n : nat) (body : Z → M unit) : M unit :=
  match n with
  | O => mret tt
  | S n' => body i;; for_uint (i + 1) n' body
  end.

Definition SetupGsiRoutingTable : M unit :=
  (* 8259A Master *)
  for_uint 0 8 (λ i, when (negb (i =? 2)) (add_irq_routing i 0 i));;
  (* 8259A Slave *)
  for_uint 0 8 (λ i, add_irq_routing (8 + i) 1 i);;
  (* IOAPIC *)
  for_uint 0 24 (λ i,
    if i =? 0 then add_irq_routing i 2 2
    else when (negb (i =? 2)) (add_irq_routing i 2 i));;
  modify (with_next_gsi (λ _, 24));;
  UpdateGsiRoutingTable.

(** [kvm_irqfd irqfd = { fd, gsi, flags }; ioctl(KVM_IRQFD) < 0] is a
    panic. *)
Definition irqfd (trigger_fd gsi irqfd_flags : Z) : M unit :=
  ret ← ioctl (KVM_IRQFD (uint32_t trigger_fd) (uint32_t gsi) irqfd_flags);
  when (ret <? 0) (MV_PANIC "failed to assign irqfd").

Definition msi_of (address data : Z) : kvm_irq_routing_u :=
  u_msi (uint32_t address) (uint32_t (Z.shiftr address 32)) data.

(** [next_gsi_] is an [int], [address] a [uint64_t], [data] a
    [uint32_t] and [trigger_fd] an [int]. *)
Definition AddMsiRoute (address data trigger_fd : Z) : M Z :=
  w ← get;
  let gsi := next_gsi_ w in
  modify (with_next_gsi (λ n, int (n + 1)));;
  let entry := {| entry_gsi := uint32_t gsi;
                  entry_type := KVM_IRQ_ROUTING_MSI;
                  entry_flags := 0;
                  entry_u := msi_of address data |} in
  modify (with_gsi_routing_table (λ table, table ++ [entry]));;
  UpdateGsiRoutingTable;;
  when (negb (trigger_fd =? -1)) (irqfd trigger_fd gsi 0);;
  mret gsi.

Definition set_msi (address data : Z) (entry : kvm_irq_routing_entry)
    : kvm_irq_routing_entry :=
  {| entry_gsi := entry_gsi entry;
     entry_type := entry_type entry;
     entry_flags := entry_flags entry;
     entry_u := msi_of address data |}.

(** Setting the address to 0 removes the route. *)
Definition UpdateMsiRoute (gsi address data trigger_fd : Z) : M unit :=
  w ← get;
  match list_find (λ entry, entry_gsi entry = uint32_t gsi) (gsi_routing_table_ w) with
  | None => MV_PANIC "not found gsi"
  | Some (it, _) =>
      if address =? 0 then
        (* deassign the irqfd and remove from table *)
        when (negb (trigger_fd =? -1))
          (irqfd trigger_fd gsi KVM_IRQFD_FLAG_DEASSIGN);;
        modify (with_gsi_routing_table (delete it))
      else
        (* update entry and irqfd *)
        modify (with_gsi_routing_table (alter (set_msi address data) it));;
        when (negb (trigger_fd =? -1)) (irqfd trigger_fd gsi 0)
  end;;
  UpdateGsiRoutingTable.

(** *** Unregistering I/O events *)

(** [UnregisterIoEvent(IoEvent* event)]: stop polling, deassign the
    ioeventfd, erase the event from the set of live events. *)
Definition UnregisterIoEvent_event (event : IoEvent) : M unit :=
  modify (with_polled_fds (filter (λ fd, fd ≠ event_fd event)));;
  match event_type event with
  | kIoEventMmio | kIoEventPio =>
      ret ← ioctl (KVM_IOEVENTFD (event_datamatch event) (event_address event)
                     (event_length event) (event_fd event)
                     (Z.lor (event_flags event) KVM_IOEVENTFD_FLAG_DEASSIGN));
      when (ret <? 0) (MV_PANIC "failed to unregister io event")
  | kIoEventFd => mret tt
  end;;
  modify (with_ioevents (filter (λ e, e ≠ event))).

(** The predicate of the [find_if] over the live events. *)
Definition ioevent_matches (device : Device) (type : IoResourceType)
    (address : Z) (e : IoEvent) : Prop :=
  event_device e = device ∧ event_address e = address ∧
  bool_decide (type = kIoResourceTypePio)
    = bool_decide (Z.land (event_flags e) KVM_IOEVENTFD_FLAG_PIO ≠ 0).

#[export] Instance ioevent_matches_dec device type address e :
  Decision (ioevent_matches device type address e).
Proof. unfold ioevent_matches. apply _. Defined.

(** [UnregisterIoEvent(Device* device, IoResourceType type, uint64_t address)] *)
Definition UnregisterIoEvent (device : Device) (type : IoResourceType)
    (address : Z) : M unit :=
  w ← get;
  match list_find (ioevent_matches device type address) (ioevents_ w) with
  | None => mret tt
  | Some (_, event) => UnregisterIoEvent_event event
  end.

End DeviceManager.

(** * I/O events *)

(** ** Integers in memory *)

Definition byte_of (z : Z) : byte :=
  match Byte.of_N (Z.to_N (z mod 256)) with
  | Some b => b
  | None => x00
  end.

(** The [n] low bytes of [z], lowest first (x86 is little endian). *)
Fixpoint le_bytes (n : nat) (z : Z) : list byte :=
  match n with
  | O => []
  | S n' => byte_of z :: le_bytes n' (z / 256)
  end.

(** The unsigned integer a sequence of bytes holds. *)
Fixpoint le_value (bytes : list byte) : Z :=
  match bytes with
  | [] => 0
  | b :: rest => Z.of_N (Byte.to_N b) + 256 * le_value rest
  end.

(** [(uint8_t* )&event->datamatch]: the eight bytes of the field. *)
Definition datamatch_bytes (event : IoEvent) : list byte :=
  le_bytes 8 (event_datamatch event).

Definition with_datamatch (bytes : list byte) (event : IoEvent) : IoEvent :=
  {| event_type := event_type event; event_device := event_device event;
     event_address := event_address event; event_length := event_length event;
     event_datamatch := le_value bytes; event_flags := event_flags event;
     event_fd := event_fd event |}.

Section IoEvents.

Variable erase_invalidated : World → deque.iterator → list IoHandler → list IoHandler.
Variable read_result : list DeviceCall → Device → IoResource → Z → Z → list byte.
Variable kvm_ioctl : list KvmRequest → KvmRequest → Z.

(** The event [RegisterIoEvent] allocates and fills in; [fd] is the
    descriptor [eventfd(0, 0)] returned. *)
Definition new_IoEvent (fd : Z) (device : Device) (type : IoResourceType)
    (address length datamatch : Z) : IoEvent :=
  let flags := if length =? 0 then 0 else KVM_IOEVENTFD_FLAG_DATAMATCH in
  {| event_type := if decide (type = kIoResourceTypePio) then kIoEventPio
                   else kIoEventMmio;
     event_device := device;
     event_address := address;
     event_length := length;
     event_datamatch := datamatch;
     event_flags := if decide (type = kIoResourceTypePio)
                    then Z.lor flags KVM_IOEVENTFD_FLAG_PIO else flags;
     event_fd := fd |}.

(** [RegisterIoEvent(device, type, address, length, datamatch)].  The
    set of live events is ordered by the addresses of the events: the
    place of the new event among the others is the allocator's choice,
    given here as the index [place]. *)
Definition RegisterIoEvent (fd : Z) (place : nat) (device : Device)
    (type : IoResourceType) (address length datamatch : Z) : M IoEvent :=
  let event := new_IoEvent fd device type address length datamatch in
  ret ← ioctl kvm_ioctl
          (KVM_IOEVENTFD (event_datamatch event) (event_address event)
             (event_length event) (event_fd event) (event_flags event));
  when (ret <? 0) (MV_PANIC "failed to register io event");;
  (* io()->StartPolling(event->fd, EPOLLIN, callback) *)
  modify (with_polled_fds (λ fds, fds ++ [event_fd event]));;
  modify (with_ioevents (λ events, take place events ++ event :: drop place events));;
  mret event.

(** The callback given to [StartPolling], run when the descriptor of
    [event] is readable: the datamatch is handed to the dispatcher as
    the data of a write.  The dispatcher works on the bytes of the
    field itself, so what it leaves there is the datamatch of the event
    from then on. *)
Definition IoEvent_callback (event : IoEvent) : M unit :=
  let data := datamatch_bytes event in
  data' ← match event_type event with
          | kIoEventMmio =>
              HandleMmio erase_invalidated read_result (event_address event) data
                (uint16_t (event_length event)) 1 true
          | kIoEventPio =>
              HandleIo erase_invalidated read_result (uint16_t (event_address event)) data
                (uint16_t (event_length event)) 1 1 true
          | kIoEventFd => mret data
          end;
  modify (with_ioevents
            (fmap (λ e, if decide (e = event) then with_datamatch data' e else e))).

End IoEvents.

(** * The registry of devices *)

(** A fatal [MV_PANIC] in code that runs outside the world of the
    dispatcher: [inl] carries the message. *)
Definition Fallible (A : Type) : Type := string + A.

#[global] Instance Fallible_bind : MBind Fallible :=
  λ A B f m, match m with inl msg => inl msg | inr a => f a end.

#[global] Instance string_eq_dec : EqDecision string := String.string_dec.

Section Registry.

(** [device->name()], and for a device that is a [PciDevice] (the
    [dynamic_cast] succeeds) its bus and function numbers.  The classes
    are declared outside the sources at hand. *)
Variable name : Device → string.
Variable pci : Device → option (Z * Z).

(** [registered_devices_] is a [std::set<Device* >]: the pointers in
    increasing order, none twice. *)
Fixpoint set_insert (d : Device) (devices : list Device) : list Device :=
  match devices with
  | [] => [d]
  | x :: rest =>
      if (d <? x)%nat then d :: x :: rest
      else if (d =? x)%nat then x :: rest
      else x :: set_insert d rest
  end.

Definition set_erase (d : Device) (devices : list Device) : list Device :=
  filter (λ x, x ≠ d) devices.

Definition LookupDeviceByName (n : string) (devices : list Device) : option Device :=
  snd <$> list_find (λ d, name d = n) devices.

Definition uint8_t (z : Z) : Z := z mod 2 ^ 8.

(** The parameters are a [uint16_t] and a [uint8_t]. *)
Definition LookupPciDevice (bus devfn : Z) (devices : list Device) : option Device :=
  let bus := uint16_t bus in
  let devfn := uint8_t devfn in
  snd <$> list_find (λ d, pci d = Some (bus, devfn)) devices.

Definition RegisterDevice (d : Device) (devices : list Device)
    : Fallible (list Device) :=
  match pci d with
  | Some (bus, devfn) =>
      (* Check devfn conflicts or reassign it *)
      match LookupPciDevice bus devfn devices with
      | Some _ => inl "PCI device function conflicts"%string
      | None => inr (set_insert d devices)
      end
  | None => inr (set_insert d devices)
  end.

Definition UnregisterDevice (d : Device) (devices : list Device) : list Device :=
  set_erase d devices.

End Registry.

(** * The machine *)

Definition X86_EPT_IDENTITY_BASE : Z := 0xfeffc000.
(** The page size of x86. *)
Definition PAGE_SIZE : Z := 4096.

Inductive MemoryType : Type :=
  | kMemoryTypeRam
  | kMemoryTypeReserved
  | kMemoryTypeDevice.

(** A call of [memory_manager_->Map(base, size, host, type, name)];
    [host] tells whether a host buffer was given. *)
Record MapRequest : Type := {
  map_base : Z;
  map_size : Z;
  map_host : bool;
  map_type : MemoryType;
  map_name : string
}.

(** Requests on the VM descriptor made while the machine is set up. *)
Inductive ArchRequest : Type :=
  | KVM_SET_IDENTITY_MAP_ADDR (identity_base : Z)
  | KVM_SET_TSS_ADDR (addr : Z)
  | KVM_CREATE_IRQCHIP
  | KVM_CREATE_PIT2.

(** What the machine asks of its threads and devices. *)
Inductive ThreadOp : Type :=
  | VcpuStart (vcpu : nat)
  | VcpuKick (vcpu : nat)
  | VcpuScheduleReset (vcpu : nat)
  | IoThreadStart
  | IoThreadStop
  | ResetDevices
  | LogResettingVcpus.

Record Machine : Type := {
  valid_ : bool;
  debug_ : bool;
  vcpus_ : list nat;
  bios_size_ : Z;
  bios_data_ : list byte;
  bios_backup_ : list byte;
  mappings : list MapRequest;
  arch_requests : list ArchRequest;
  thread_ops : list ThreadOp
}.

Definition with_thread_ops (f : list ThreadOp → list ThreadOp) (m : Machine) : Machine :=
  {| valid_ := valid_ m; debug_ := debug_ m; vcpus_ := vcpus_ m;
     bios_size_ := bios_size_ m; bios_data_ := bios_data_ m;
     bios_backup_ := bios_backup_ m; mappings := mappings m;
     arch_requests := arch_requests m; thread_ops := f (thread_ops m) |}.

Definition with_mappings (f : list MapRequest → list MapRequest) (m : Machine) : Machine :=
  {| valid_ := valid_ m; debug_ := debug_ m; vcpus_ := vcpus_ m;
     bios_size_ := bios_size_ m; bios_data_ := bios_data_ m;
     bios_backup_ := bios_backup_ m; mappings := f (mappings m);
     arch_requests := arch_requests m; thread_ops := thread_ops m |}.

Definition with_arch_requests (f : list ArchRequest → list ArchRequest) (m : Machine)
    : Machine :=
  {| valid_ := valid_ m; debug_ := debug_ m; vcpus_ := vcpus_ m;
     bios_size_ := bios_size_ m; bios_data_ := bios_data_ m;
     bios_backup_ := bios_backup_ m; mappings := mappings m;
     arch_requests := f (arch_requests m); thread_ops := thread_ops m |}.

(** [LoadBiosFile]: [fd] is what [open(bios_path_, O_RDONLY)] returns and
    [content] the bytes of the file, [st.st_size] many.  The differences
    reach [Map] as 64-bit guest addresses. *)
Definition LoadBiosFile (fd : Z) (content : list byte) (m : Machine)
    : Fallible Machine :=
  if negb (0 <? fd) then inl "MV_ASSERT(fd > 0)"%string
  else
      let size := Z.of_nat (length content) in
      inr {| valid_ := valid_ m; debug_ := debug_ m; vcpus_ := vcpus_ m;
             bios_size_ := size;
             bios_data_ := content;
             bios_backup_ := content;
             mappings :=
               mappings m
               ++ [{| map_base := uint64_t (0x100000 - size); map_size := size;
                      map_host := true; map_type := kMemoryTypeRam;
                      map_name := "SeaBIOS" |};
                   {| map_base := uint64_t (0x100000000 - size); map_size := size;
                      map_host := true; map_type := kMemoryTypeRam;
                      map_name := "SeaBIOS" |}];
             arch_requests := arch_requests m;
             thread_ops := thread_ops m |}.

Section MachineSetup.

(** The kernel's answer to a request on the VM descriptor. *)
Variable vm_ioctl : list ArchRequest → ArchRequest → Z.

Definition arch_ioctl (req : ArchRequest) (msg : string) (m : Machine)
    : Fallible Machine :=
  if vm_ioctl (arch_requests m) req <? 0 then inl msg
  else inr (with_arch_requests (λ rs, rs ++ [req]) m).

Definition CreateArchRelated (m : Machine) : Fallible Machine :=
  (* Allows up to 16M BIOSes. *)
  let identity_base := X86_EPT_IDENTITY_BASE in
  m ← arch_ioctl (KVM_SET_IDENTITY_MAP_ADDR identity_base)
        "failed to set identity map address" m;
  m ← arch_ioctl (KVM_SET_TSS_ADDR (uint64_t (identity_base + 0x1000)))
        "failed to set tss" m;
  (* Map these addresses as reserved so the guest never touch it *)
  let m := with_mappings
             (λ ms, ms ++ [{| map_base := X86_EPT_IDENTITY_BASE;
                              map_size := 4 * PAGE_SIZE; map_host := false;
                              map_type := kMemoryTypeReserved;
                              map_name := "EPT+TSS" |}]) m in
  m ← arch_ioctl KVM_CREATE_IRQCHIP "failed to create irqchip" m;
  arch_ioctl KVM_CREATE_PIT2 "failed to create pit" m.

End MachineSetup.

(** [Run]: start the vCPU threads and the I/O thread. *)
Definition Run (m : Machine) : Z * Machine :=
  (0, with_thread_ops (λ ops, ops ++ (VcpuStart <$> vcpus_ m) ++ [IoThreadStart]) m).

Definition Quit (m : Machine) : Machine :=
  if negb (valid_ m) then m
  else
    {| valid_ := false; debug_ := debug_ m; vcpus_ := vcpus_ m;
       bios_size_ := bios_size_ m; bios_data_ := bios_data_ m;
       bios_backup_ := bios_backup_ m; mappings := mappings m;
       arch_requests := arch_requests m;
       thread_ops := thread_ops m ++ (VcpuKick <$> vcpus_ m) ++ [IoThreadStop] |}.

(** [memcpy(dest, src, n)] on buffers of at least [n] bytes. *)
Definition memcpy (dest src : list byte) (n : Z) : list byte :=
  take (Z.to_nat n) src ++ drop (Z.to_nat n) dest.

(** [Reset]: recover the BIOS data, reset the devices, have every vCPU
    reset itself. *)
Definition Reset (m : Machine) : Machine :=
  {| valid_ := valid_ m; debug_ := debug_ m; vcpus_ := vcpus_ m;
     bios_size_ := bios_size_ m;
     bios_data_ := memcpy (bios_data_ m) (bios_backup_ m) (bios_size_ m);
     bios_backup_ := bios_backup_ m; mappings := mappings m;
     arch_requests := arch_requests m;
     thread_ops :=
       thread_ops m ++ [ResetDevices]
       ++ (if debug_ m then [LogResettingVcpus] else [])
       ++ (VcpuScheduleReset <$> vcpus_ m) |}.

(** * Raw disk images *)

Inductive OpenFlags : Type := O_RDONLY | O_RDWR.

(** Requests handed to the I/O thread, each with the callback of the
    caller. *)
Inductive IoRequest : Type :=
  | IoRead (fd length position : Z)
  | IoWrite (fd length position : Z)
  | IoFSync (fd : Z).

Record RawImage : Type := {
  fd_ : Z;
  block_size_ : Z;
  total_blocks_ : Z;
  readonly_ : bool;
  (* the requests made to the I/O thread *)
  requests : list IoRequest;
  (* the results handed to callbacks by the image itself *)
  completions : list Z
}.

(** A [RawImage] as constructed. *)
Definition new_RawImage : RawImage :=
  {| fd_ := -1; block_size_ := 512; total_blocks_ := 0; readonly_ := false;
     requests := []; completions := [] |}.

Record ImageInformation : Type := {
  block_size : Z;
  total_blocks : Z
}.

Definition information (image : RawImage) : ImageInformation :=
  {| block_size := block_size_ image; total_blocks := total_blocks_ image |}.

Section RawImageFile.

(** The file system: the descriptor [open(path, flags)] returns and the
    size [fstat] reports for the file. *)
Variable open : string → OpenFlags → Z.
Variable st_size : string → Z.

(** [st.st_size / block_size_] divides in [size_t]. *)
Definition Initialize (path : string) (readonly : bool) (image : RawImage)
    : Fallible RawImage :=
  let fd := if readonly then open path O_RDONLY else open path O_RDWR in
  if fd <? 0 then inl "disk file not found"%string
  else
    inr {| fd_ := fd; block_size_ := 512;
           total_blocks_ := uint64_t (st_size path) / 512;
           readonly_ := readonly;
           requests := requests image; completions := completions image |}.

End RawImageFile.

Definition with_requests (f : list IoRequest → list IoRequest) (image : RawImage)
    : RawImage :=
  {| fd_ := fd_ image; block_size_ := block_size_ image;
     total_blocks_ := total_blocks_ image; readonly_ := readonly_ image;
     requests := f (requests image); completions := completions image |}.

(** [callback(ret)] called by the image at once. *)
Definition complete (ret : Z) (image : RawImage) : RawImage :=
  {| fd_ := fd_ image; block_size_ := block_size_ image;
     total_blocks_ := total_blocks_ image; readonly_ := readonly_ image;
     requests := requests image; completions := completions image ++ [ret] |}.

Definition RawImage_Read (position length : Z) (image : RawImage) : RawImage :=
  with_requests (λ rs, rs ++ [IoRead (fd_ image) length position]) image.

Definition RawImage_Write (position length : Z) (image : RawImage) : RawImage :=
  if readonly_ image then complete 0 image
  else with_requests (λ rs, rs ++ [IoWrite (fd_ image) length position]) image.

Definition RawImage_Flush (image : RawImage) : RawImage :=
  if readonly_ image then complete 0 image
  else with_requests (λ rs, rs ++ [IoFSync (fd_ image)]) image.

(** * Vocabulary of the properties *)

(** The handler at index [k] is the first in table order that claims
    [addr]. *)
Definition first_match (addr : Z) (handlers : list IoHandler) (k : nat)
    (h : IoHandler) : Prop :=
  handlers !! k = Some h ∧ claims (resource h) addr = true ∧
  ∀ j h', (j < k)%nat → handlers !! j = Some h' → claims (resource h') addr = false.

(** The call a PIO transfer makes with the buffer pointer at [ptr]. *)
Definition pio_call (d : Device) (r : IoResource) (port is_write size : Z)
    (data : list byte) (ptr : Z) : DeviceCall :=
  if negb (is_write =? 0)
  then Write d r (uint64_t (port - resource_base r)) ptr size (bytes_at data ptr size)
  else Read d r (uint64_t (port - resource_base r)) ptr size.

(** The calls of [n] iterations that start with the pointer at [ptr]. *)
Definition pio_calls (n : nat) (d : Device) (r : IoResource) (port is_write size : Z)
    (data : list byte) (ptr : Z) : list DeviceCall :=
  (λ i : nat, pio_call d r port is_write size data (ptr + Z.of_nat i * size)) <$> seq 0 n.

(** What [HandleIo] and [HandleMmio] do to the world once the scan has
    stopped at index [k], with a library that makes [erase_invalidated]
    of an invalidated iterator. *)
Definition promoted_pio
    (erase_invalidated : World → deque.iterator → list IoHandler → list IoHandler)
    (k : nat) (h : IoHandler) (w : World) : World :=
  if (3 <=? k)%nat
  then with_pio_handlers (move_to_front erase_invalidated w k h) w
  else w.

Definition promoted_mmio
    (erase_invalidated : World → deque.iterator → list IoHandler → list IoHandler)
    (k : nat) (h : IoHandler) (w : World) : World :=
  if (3 <=? k)%nat
  then with_mmio_handlers (move_to_front erase_invalidated w k h) w
  else w.

Definition mmio_call (h : IoHandler) (base is_write size : Z) (data : list byte)
    : DeviceCall :=
  if negb (is_write =? 0)
  then Write (device h) (resource h) (uint64_t (base - resource_base (resource h)))
         0 size (bytes_at data 0 size)
  else Read (device h) (resource h) (uint64_t (base - resource_base (resource h)))
         0 size.

(** The initial table as the specification lists it: the lines of the
    master PIC, of the slave PIC and of the IOAPIC. *)
Definition irqchip_route (gsi chip pin : Z) : kvm_irq_routing_entry :=
  {| entry_gsi := gsi; entry_type := KVM_IRQ_ROUTING_IRQCHIP;
     entry_flags := 0; entry_u := u_irqchip chip pin |}.

Definition pic_master_routes : list kvm_irq_routing_entry :=
  (λ gsi, irqchip_route gsi 0 gsi) <$> [0; 1; 3; 4; 5; 6; 7].

Definition pic_slave_routes : list kvm_irq_routing_entry :=
  (λ gsi, irqchip_route gsi 1 (gsi - 8)) <$> [8; 9; 10; 11; 12; 13; 14; 15].

Definition ioapic_routes : list kvm_irq_routing_entry :=
  irqchip_route 0 2 2 ::
  ((λ gsi, irqchip_route gsi 2 gsi) <$>
     [1; 3; 4; 5; 6; 7; 8; 9; 10; 11; 12; 13; 14; 15; 16; 17; 18; 19; 20; 21; 22; 23]).

Definition initial_routes : list kvm_irq_routing_entry :=
  pic_master_routes ++ pic_slave_routes ++ ioapic_routes.

Definition msi_route (gsi address data : Z) : kvm_irq_routing_entry :=
  {| entry_gsi := gsi; entry_type := KVM_IRQ_ROUTING_MSI;
     entry_flags := 0; entry_u := msi_of address data |}.

(** The kernel accepts every request. *)
Definition kernel_accepts (kvm_ioctl : list KvmRequest → KvmRequest → Z) : Prop :=
  ∀ history req, kvm_ioctl history req = 0.

(** The routes a loop appends when its body appends [routes i]. *)
Fixpoint loop_routes (routes : Z → list kvm_irq_routing_entry) (i : Z) (n : nat)
    : list kvm_irq_routing_entry :=
  match n with
  | O => []
  | S n' => routes i ++ loop_routes routes (i + 1) n'
  end.

Definition is_msi (e : kvm_irq_routing_entry) : Prop :=
  entry_type e = KVM_IRQ_ROUTING_MSI.

#[export] Instance is_msi_dec (e : kvm_irq_routing_entry) : Decision (is_msi e).
Proof. unfold is_msi. apply _. Defined.

(** The gsi numbers of the MSI routes, in table order. *)
Definition msi_gsis (table : list kvm_irq_routing_entry) : list Z :=
  entry_gsi <$> filter is_msi table.

(** "No two live entries share the same gsi". *)
Definition gsi_unique (table : list kvm_irq_routing_entry) : Prop :=
  ∀ (i j : nat) e1 e2,
    i ≠ j → table !! i = Some e1 → table !! j = Some e2 →
    entry_gsi e1 ≠ entry_gsi e2.

(** An MSI route shares its gsi with no other entry. *)
Definition msi_gsi_unique (table : list kvm_irq_routing_entry) : Prop :=
  ∀ (i j : nat) e1 e2,
    i ≠ j → table !! i = Some e1 → table !! j = Some e2 →
    is_msi e1 ∨ is_msi e2 →
    entry_gsi e1 ≠ entry_gsi e2.

(** MSI routes carry allocated numbers, the other entries the 24 pins
    of the interrupt chips. *)
Definition gsi_in_range (next_gsi : Z) (e : kvm_irq_routing_entry) : Prop :=
  if decide (is_msi e) then 24 ≤ entry_gsi e < next_gsi
  else 0 ≤ entry_gsi e < 24.

Record gsi_invariant (w : World) : Prop := {
  next_gsi_range : 24 ≤ next_gsi_ w ≤ INT_MAX;
  entries_in_range : Forall (gsi_in_range (next_gsi_ w)) (gsi_routing_table_ w);
  msi_gsis_NoDup : NoDup (msi_gsis (gsi_routing_table_ w))
}.

(** Sequences of route operations. *)
Inductive MsiOp : Type :=
  | Add (address data trigger_fd : Z)
  | Update (gsi address data trigger_fd : Z).

(** The number of [Add]s in a sequence. *)
Fixpoint adds (ops : list MsiOp) : Z :=
  match ops with
  | [] => 0
  | Add _ _ _ :: rest => 1 + adds rest
  | Update _ _ _ _ :: rest => adds rest
  end.

Definition run_op (kvm_ioctl : list KvmRequest → KvmRequest → Z) (op : MsiOp)
    : M unit :=
  match op with
  | Add address data trigger_fd =>
      AddMsiRoute kvm_ioctl address data trigger_fd;; mret tt
  | Update gsi address data trigger_fd =>
      UpdateMsiRoute kvm_ioctl gsi address data trigger_fd
  end.

Fixpoint run_ops (kvm_ioctl : list KvmRequest → KvmRequest → Z) (ops : list MsiOp)
    : M unit :=
  match ops with
  | [] => mret tt
  | op :: rest => run_op kvm_ioctl op;; run_ops kvm_ioctl rest
  end.

(** A manager as its constructor finds it, before
    [SetupGsiRoutingTable]. *)
Definition new_world (debug : bool) : World :=
  {| pio_handlers_ := []; mmio_handlers_ := []; ioevents_ := [];
     gsi_routing_table_ := []; next_gsi_ := 0; debug := debug;
     device_calls := []; kvm_requests := []; polled_fds := []; log := [] |}.

(** The handlers of a device at a base address, the key of
    [UnregisterIoHandler]. *)
Definition registered_at (d : Device) (r : IoResource) (h : IoHandler) : Prop :=
  device h = d ∧ resource_base (resource h) = resource_base r.

(** The table a resource of a given type is registered in. *)
Definition handlers_of (type : IoResourceType) (w : World) : list IoHandler :=
  match type with
  | kIoResourceTypePio => pio_handlers_ w
  | kIoResourceTypeMmio => mmio_handlers_ w
  | kIoResourceTypeRam => []
  end.

(** The routing table the kernel holds: the one of the last
    [KVM_SET_GSI_ROUTING] request made. *)
Fixpoint last_routing_push (reqs : list KvmRequest)
    : option (Z * list kvm_irq_routing_entry) :=
  match reqs with
  | [] => None
  | req :: rest =>
      match last_routing_push rest with
      | Some pushed => Some pushed
      | None =>
          match req with
          | KVM_SET_GSI_ROUTING nr entries => Some (nr, entries)
          | _ => None
          end
      end
  end.

(** The kernel holds the mirror. *)
Definition mirror_pushed (w : World) : Prop :=
  last_routing_push (kvm_requests w)
  = Some (Z.of_nat (length (gsi_routing_table_ w)), gsi_routing_table_ w).

(** ** Runs of the registry, the machine and a disk image *)

Inductive RegistryOp : Type :=
  | DoRegister (d : Device)
  | DoUnregister (d : Device).

Section RegistryRuns.

Variable pci : Device → option (Z * Z).

Definition registry_op (op : RegistryOp) (devices : list Device)
    : Fallible (list Device) :=
  match op with
  | DoRegister d => RegisterDevice pci d devices
  | DoUnregister d => inr (UnregisterDevice d devices)
  end.

Fixpoint registry_ops (ops : list RegistryOp) (devices : list Device)
    : Fallible (list Device) :=
  match ops with
  | [] => inr devices
  | op :: rest => devices ← registry_op op devices; registry_ops rest devices
  end.

(** No two registered devices sit at the same bus and function. *)
Definition pci_unique (devices : list Device) : Prop :=
  ∀ d1 d2 c,
    d1 ∈ devices → d2 ∈ devices → pci d1 = Some c → pci d2 = Some c → d1 = d2.

(** The bus number fits the [uint16_t] and the function number the
    [uint8_t] that [LookupPciDevice] takes. *)
Definition pci_typed : Prop :=
  ∀ d bus devfn, pci d = Some (bus, devfn) → 0 ≤ bus < 2 ^ 16 ∧ 0 ≤ devfn < 2 ^ 8.

End RegistryRuns.

Inductive MachineCall : Type :=
  | CallRun
  | CallQuit
  | CallReset.

Definition machine_call (call : MachineCall) (m : Machine) : Machine :=
  match call with
  | CallRun => snd (Run m)
  | CallQuit => Quit m
  | CallReset => Reset m
  end.

Fixpoint machine_calls (calls : list MachineCall) (m : Machine) : Machine :=
  match calls with
  | [] => m
  | call :: rest => machine_calls rest (machine_call call m)
  end.

Definition quits (calls : list MachineCall) : bool :=
  existsb (λ call, match call with CallQuit => true | _ => false end) calls.

(** What [Quit] asks of the threads. *)
Definition shutdown_op (op : ThreadOp) : bool :=
  match op with
  | VcpuKick _ | IoThreadStop => true
  | _ => false
  end.

Definition shutdown_ops (m : Machine) : list ThreadOp :=
  List.filter shutdown_op (thread_ops m).

(** The guest writes over the BIOS it runs from. *)
Definition with_bios_data (data : list byte) (m : Machine) : Machine :=
  {| valid_ := valid_ m; debug_ := debug_ m; vcpus_ := vcpus_ m;
     bios_size_ := bios_size_ m; bios_data_ := data;
     bios_backup_ := bios_backup_ m; mappings := mappings m;
     arch_requests := arch_requests m; thread_ops := thread_ops m |}.

Definition vm_accepts (vm_ioctl : list ArchRequest → ArchRequest → Z) : Prop :=
  ∀ history req, 0 ≤ vm_ioctl history req.

Inductive ImageCall : Type :=
  | CallRead (position length : Z)
  | CallWrite (position length : Z)
  | CallFlush.

Definition image_call (call : ImageCall) (image : RawImage) : RawImage :=
  match call with
  | CallRead position length => RawImage_Read position length image
  | CallWrite position length => RawImage_Write position length image
  | CallFlush => RawImage_Flush image
  end.

Fixpoint image_calls (calls : list ImageCall) (image : RawImage) : RawImage :=
  match calls with
  | [] => image
  | call :: rest => image_calls rest (image_call call image)
  end.

(** The request a call makes when it is passed on to the I/O thread. *)
Definition forwarded (fd : Z) (call : ImageCall) : IoRequest :=
  match call with
  | CallRead position length => IoRead fd length position
  | CallWrite position length => IoWrite fd length position
  | CallFlush => IoFSync fd
  end.

Definition reads_of (fd : Z) (calls : list ImageCall) : list IoRequest :=
  omap (λ call, match call with
                | CallRead position length => Some (IoRead fd length position)
                | _ => None
                end) calls.

(** One result 0 for each call that is not a read. *)
Definition acknowledged (calls : list ImageCall) : list Z :=
  omap (λ call, match call with
                | CallRead _ _ => None
                | _ => Some 0
                end) calls.

(** * A concrete machine *)

Definition pio (base length : Z) (name : string) : IoResource :=
  {| resource_type := kIoResourceTypePio; resource_base := base;
     resource_length := length; resource_name := name; resource_enabled := true |}.

Definition mmio (base length : Z) (name : string) : IoResource :=
  {| resource_type := kIoResourceTypeMmio; resource_base := base;
     resource_length := length; resource_name := name; resource_enabled := true |}.

Definition handler (r : IoResource) (d : Device) : IoHandler :=
  {| resource := r; device := d;
     memory_region := match resource_type r with
                      | kIoResourceTypeMmio => Some d
                      | _ => None
                      end |}.

Definition keyboard : IoHandler := handler (pio 0x60 4 "ps2") 1%nat.
Definition cmos : IoHandler := handler (pio 0x70 2 "cmos") 2%nat.
Definition pit : IoHandler := handler (pio 0x40 4 "pit") 3%nat.
Definition serial : IoHandler := handler (pio 0x3f8 8 "serial") 4%nat.
Definition floppy : IoHandler := handler (pio 0x3f0 8 "floppy") 5%nat.

Definition hpet : IoHandler := handler (mmio 0xfed00000 0x400 "hpet") 6%nat.
Definition ioapic : IoHandler := handler (mmio 0xfec00000 0x1000 "ioapic") 7%nat.
Definition lapic : IoHandler := handler (mmio 0xfee00000 0x1000 "lapic") 8%nat.
Definition vga : IoHandler := handler (mmio 0xa0000 0x20000 "vga") 9%nat.

Definition virtio_notify : IoEvent :=
  {| event_type := kIoEventMmio; event_device := 10%nat; event_address := 0xc000;
     event_length := 2; event_datamatch := 1;
     event_flags := KVM_IOEVENTFD_FLAG_DATAMATCH; event_fd := 12 |}.

(** A manager after construction: the devices above connected, the
    initial routing table pushed. *)
Definition example_world : World :=
  {| pio_handlers_ := [keyboard; cmos; pit; serial; floppy];
     mmio_handlers_ := [hpet; ioapic; lapic; vga];
     ioevents_ := [virtio_notify];
     gsi_routing_table_ := initial_routes;
     next_gsi_ := 24;
     debug := false;
     device_calls := [];
     kvm_requests := [KVM_SET_GSI_ROUTING 38 initial_routes];
     polled_fds := [12];
     log := [] |}.

(** A memory manager that numbers a region after its base, devices
    that read as zero and a kernel that accepts every request. *)
Definition example_Map : Z → Z → string → MemoryRegion :=
  λ base _ _,
    if base =? 0xfed00000 then 6%nat
    else if base =? 0xfec00000 then 7%nat
    else if base =? 0xfee00000 then 8%nat
    else 9%nat.

(** A library under which the element that the invalidated iterator
    designated is still found and erased: what the code expects of
    [erase]. *)
Definition surviving_iterator : World → deque.iterator → list IoHandler → list IoHandler :=
  λ _ it handlers, deque.erase (S it) handlers.

Definition zero_device : list DeviceCall → Device → IoResource → Z → Z → list byte :=
  λ _ _ _ _ size, replicate (Z.to_nat size) x00.

Definition willing_kernel : list KvmRequest → KvmRequest → Z := λ _ _, 0.

Definition example_ops : list MsiOp :=
  [Add 0xfee00000 0x4041 (-1); Add 0xfee01000 0x4042 7; Update 24 0 0 (-1)].

(** A kernel that refuses every request. *)
Definition refusing_kernel : list KvmRequest → KvmRequest → Z := λ _ _, -1.

(** An event on a register of the I/O APIC and one on a port that no
    device of the machine answers. *)
Definition ioapic_kick : IoEvent :=
  {| event_type := kIoEventMmio; event_device := 7%nat; event_address := 0xfec00010;
     event_length := 4; event_datamatch := 0x11223344;
     event_flags := KVM_IOEVENTFD_FLAG_DATAMATCH; event_fd := 14 |}.

Definition stray_doorbell : IoEvent :=
  {| event_type := kIoEventPio; event_device := 10%nat; event_address := 0x500;
     event_length := 2; event_datamatch := 0x0001;
     event_flags := Z.lor KVM_IOEVENTFD_FLAG_DATAMATCH KVM_IOEVENTFD_FLAG_PIO;
     event_fd := 15 |}.

(** Three PCI devices, two of them at bus 0, function 8, and a device
    that is not a PCI device. *)
Definition example_pci (d : Device) : option (Z * Z) :=
  match d with
  | 1%nat => Some (0, 8)
  | 2%nat => Some (0, 16)
  | 3%nat => Some (0, 8)
  | _ => None
  end.

Definition example_machine : Machine :=
  {| valid_ := true; debug_ := false; vcpus_ := [0%nat; 1%nat];
     bios_size_ := 0; bios_data_ := []; bios_backup_ := [];
     mappings := []; arch_requests := []; thread_ops := [] |}.

Definition example_bios : list byte := [xea; x5b; xe0; x00; xf0].

Definition willing_vm : list ArchRequest → ArchRequest → Z := λ _ _, 0.

(** A file of 1000 bytes that opens as descriptor 5. *)
Definition example_open : string → OpenFlags → Z := λ _ _, 5.
Definition example_st_size : string → Z := λ _, 1000.

Definition example_image : RawImage :=
  {| fd_ := 5; block_size_ := 512; total_blocks_ := 1; readonly_ := true;
     requests := []; completions := [] |}.

(** * Properties *)

(** ** Unfolding member functions *)

Ltac unfold_M :=
  unfold mbind, M_bind, mret, M_ret, get, modify, when, MV_LOG, MV_PANIC.

Lemma bind_Ok {A B : Type} (m : M A) (f : A → M B) (w w' : World) (a : A) :
  m w = Ok a w' → (m ≫= f) w = f a w'.
Proof. intros E. unfold mbind, M_bind. now rewrite E. Qed.

(** ** The dispatch loop *)

Lemma lookup_handler_None (addr : Z) (handlers : list IoHandler) (n : nat) :
  lookup_handler addr handlers n = None ↔
  ∀ h, h ∈ handlers → claims (resource h) addr = false.
Proof.
  revert n. induction handlers as [|h0 rest IH]; intros n; simpl.
  - split; [intros _ h Hin; inversion Hin | done].
  - destruct (claims (resource h0) addr) eqn:E.
    + split; [done |]. intros H.
      assert (claims (resource h0) addr = false) by (apply H, elem_of_cons; now left).
      congruence.
    + rewrite IH. split.
      * intros H h Hin. apply elem_of_cons in Hin as [-> | Hin]; auto.
      * intros H h Hin. apply H, elem_of_cons. now right.
Qed.

Lemma lookup_handler_Some (addr : Z) (handlers : list IoHandler) (n k : nat)
    (h : IoHandler) :
  first_match addr handlers k h →
  lookup_handler addr handlers n = Some ((n + k)%nat, h).
Proof.
  revert n k. induction handlers as [|h0 rest IH]; intros n k (Hk & Hc & Hfirst).
  - done.
  - simpl. destruct k as [|k]; simpl in Hk.
    + injection Hk as ->. rewrite Hc. do 2 f_equal. lia.
    + rewrite (Hfirst 0%nat h0) by (done || lia).
      rewrite (IH (S n) k).
      * do 2 f_equal. lia.
      * repeat split; [done | done |]. intros j h' Hj Hl.
        apply (Hfirst (S j) h'); [lia | done].
Qed.

Lemma lookup_handler_first_match (addr : Z) (handlers : list IoHandler)
    (n m : nat) (h : IoHandler) :
  lookup_handler addr handlers n = Some (m, h) →
  ∃ k, m = (n + k)%nat ∧ first_match addr handlers k h.
Proof.
  revert n. induction handlers as [|h0 rest IH]; intros n; simpl; [done |].
  destruct (claims (resource h0) addr) eqn:E.
  - intros [= <- <-]. exists 0%nat. split; [lia |].
    repeat split; [done |]. intros j h' Hj. lia.
  - intros H. apply IH in H as (k & -> & Hk & Hc & Hfirst).
    exists (S k). split; [lia |]. repeat split; [done | done |].
    intros [|j] h' Hj; simpl.
    + intros [= <-]. done.
    + apply Hfirst. lia.
Qed.

Lemma with_device_calls_app (l1 l2 : list DeviceCall) (w : World) :
  with_device_calls (λ cs, cs ++ l2) (with_device_calls (λ cs, cs ++ l1) w)
  = with_device_calls (λ cs, cs ++ (l1 ++ l2)) w.
Proof. unfold with_device_calls; simpl. now rewrite <- app_assoc. Qed.

Lemma with_device_calls_nil (w : World) : with_device_calls (λ cs, cs ++ []) w = w.
Proof. destruct w; unfold with_device_calls; simpl. now rewrite app_nil_r. Qed.

Lemma pio_call_Read (d : Device) (r : IoResource) (port is_write size : Z)
    (data data' : list byte) (ptr : Z) :
  is_write = 0 →
  pio_call d r port is_write size data ptr = pio_call d r port is_write size data' ptr.
Proof. intros ->. reflexivity. Qed.

Lemma pio_calls_S (n : nat) (d : Device) (r : IoResource) (port is_write size : Z)
    (data data' : list byte) (ptr : Z) :
  is_write = 0 ∨ data' = data →
  pio_calls (S n) d r port is_write size data ptr
  = pio_call d r port is_write size data ptr
    :: pio_calls n d r port is_write size data' (ptr + size).
Proof.
  intros H. unfold pio_calls. simpl seq. rewrite fmap_cons.
  rewrite <- fmap_S_seq, <- list_fmap_compose. f_equal.
  - f_equal. lia.
  - apply list_fmap_ext. intros _ i _. simpl.
    replace (ptr + size + Z.of_nat i * size) with (ptr + Z.of_nat (S i) * size) by lia.
    destruct H as [H | ->]; [now apply pio_call_Read | done].
Qed.

Section Dispatch.

Variable erase_invalidated : World → deque.iterator → list IoHandler → list IoHandler.
Variable read_result : list DeviceCall → Device → IoResource → Z → Z → list byte.

(** A transfer returns, touches nothing but the call trace, and leaves
    the buffer alone when it writes to the device. *)
Lemma pio_transfer_Ok (n : nat) (d : Device) (r : IoResource)
    (port is_write size ptr : Z) (data : list byte) (w : World) :
  ∃ data',
    pio_transfer read_result n d r port is_write size ptr data w
    = Ok data' (with_device_calls
                  (λ cs, cs ++ pio_calls n d r port is_write size data ptr) w)
    ∧ length data' = length data
    ∧ (is_write ≠ 0 ∨ n = 0%nat → data' = data).
Proof.
  revert ptr data w. induction n as [|n IH]; intros ptr data w.
  - exists data. simpl. unfold_M. now rewrite with_device_calls_nil.
  - simpl pio_transfer.
    destruct (is_write =? 0) eqn:Ew; simpl negb; cbv iota.
    + (* Read *)
      apply Z.eqb_eq in Ew.
      set (data1 := store_at data ptr
             (take (Z.to_nat size)
                (read_result (device_calls w) d r (uint64_t (port - resource_base r)) size))).
      destruct (IH (ptr + size) data1
                  (with_device_calls
                     (λ cs, cs ++ [pio_call d r port is_write size data ptr]) w))
        as (data' & E & Hlen & _).
      exists data'. split; [| split].
      * rewrite (pio_calls_S n d r port is_write size data data1) by now left.
        rewrite with_device_calls_app in E. simpl app in E. rewrite <- E.
        unfold pio_call. subst is_write. reflexivity.
      * rewrite Hlen. unfold data1, store_at. apply length_inserts.
      * intros [? | ?]; done.
    + (* Write *)
      apply Z.eqb_neq in Ew.
      destruct (IH (ptr + size) data
                  (with_device_calls
                     (λ cs, cs ++ [pio_call d r port is_write size data ptr]) w))
        as (data' & E & Hlen & Hdata).
      assert (data' = data) as -> by (apply Hdata; now left).
      exists data. split; [| done].
      rewrite (pio_calls_S n d r port is_write size data data) by now right.
      rewrite with_device_calls_app in E. simpl app in E. rewrite <- E.
      unfold pio_call. apply Z.eqb_neq in Ew. rewrite Ew. reflexivity.
Qed.

Lemma HandleIo_handled (port : Z) (data : list byte) (size is_write count : Z)
    (ioeventfd : bool) (w : World) (k : nat) (h : IoHandler) :
  lookup_handler port (pio_handlers_ w) 0 = Some (k, h) →
  ∃ data',
    HandleIo erase_invalidated read_result port data size is_write count ioeventfd w
    = Ok data' (with_device_calls
                  (λ cs, cs ++ pio_calls (Z.to_nat count) (device h) (resource h)
                                 port is_write size data 0)
                  (promoted_pio erase_invalidated k h w))
    ∧ length data' = length data
    ∧ (is_write ≠ 0 ∨ Z.to_nat count = 0%nat → data' = data).
Proof.
  intros Hscan.
  destruct (pio_transfer_Ok (Z.to_nat count) (device h) (resource h) port is_write
              size 0 data (promoted_pio erase_invalidated k h w)) as (data' & E & Hlen & Hw).
  exists data'. split; [| done].
  rewrite <- E. unfold HandleIo, promoted_pio. unfold_M. cbn beta. rewrite Hscan.
  now destruct (3 <=? k)%nat.
Qed.

Lemma HandleIo_unhandled (port : Z) (data : list byte) (size is_write count : Z)
    (ioeventfd : bool) (w : World) :
  (∀ h, h ∈ pio_handlers_ w → claims (resource h) port = false) →
  HandleIo erase_invalidated read_result port data size is_write count ioeventfd w
  = Ok (memset data xff size)
       (if debug w
        then with_log (λ ls, ls ++ [unhandled_io (negb (is_write =? 0)) port size count]) w
        else w).
Proof.
  intros Hnone. apply (lookup_handler_None port _ 0) in Hnone.
  unfold HandleIo. unfold_M. cbn beta. rewrite Hnone.
  now destruct (debug w).
Qed.

Lemma HandleMmio_handled (base : Z) (data : list byte) (size is_write : Z)
    (ioeventfd : bool) (w : World) (k : nat) (h : IoHandler) :
  lookup_handler base (mmio_handlers_ w) 0 = Some (k, h) →
  ∃ data',
    HandleMmio erase_invalidated read_result base data size is_write ioeventfd w
    = Ok data' (with_device_calls (λ cs, cs ++ [mmio_call h base is_write size data])
                  (promoted_mmio erase_invalidated k h w)).
Proof.
  intros Hscan. unfold HandleMmio, promoted_mmio, mmio_call. unfold_M. cbn beta.
  rewrite Hscan. unfold Device_Write, Device_Read. unfold_M.
  destruct (3 <=? k)%nat; destruct (negb (is_write =? 0)); cbn beta iota; eauto.
Qed.

Lemma memset_length (data : list byte) (c : byte) (n : Z) :
  length (memset data c n) = length data.
Proof.
  unfold memset. rewrite length_app, length_replicate, length_drop. lia.
Qed.

Lemma memset_lookup_lt (data : list byte) (c : byte) (n : Z) (i : nat) :
  (i < Z.to_nat n)%nat → (i < length data)%nat → memset data c n !! i = Some c.
Proof.
  intros Hn Hlen. unfold memset.
  rewrite lookup_app_l by (rewrite length_replicate; lia).
  apply lookup_replicate_2. lia.
Qed.

Lemma memset_lookup_ge (data : list byte) (c : byte) (n : Z) (i : nat) :
  (Z.to_nat n ≤ i)%nat → memset data c n !! i = data !! i.
Proof.
  intros Hn. unfold memset.
  destruct (decide (Z.to_nat n ≤ length data)%nat) as [Hle | Hgt].
  - rewrite lookup_app_r by (rewrite length_replicate; lia).
    rewrite length_replicate, lookup_drop. f_equal. lia.
  - rewrite drop_ge, app_nil_r by lia.
    rewrite (lookup_ge_None_2 data) by lia.
    apply lookup_ge_None_2. rewrite length_replicate. lia.
Qed.


(** ** Move to front *)



(** ** Unhandled port I/O *)


(** C9: on an unhandled port [HandleIo] sets exactly the first [size]
    bytes of the buffer to 0xFF, whatever [count] is: every byte from
    index [size] on, so those up to [size * count] of a string
    operation, keeps its value. *)
Theorem unhandled_pio_fills_size_bytes (port : Z) (data : list byte)
    (size is_write count : Z) (ioeventfd : bool) (w : World) :
  (∀ h, h ∈ pio_handlers_ w → claims (resource h) port = false) →
  ∃ data' w',
    HandleIo erase_invalidated read_result port data size is_write count ioeventfd w = Ok data' w'
    ∧ length data' = length data
    ∧ (∀ i : nat, (i < Z.to_nat size)%nat → (i < length data)%nat →
         data' !! i = Some xff)
    ∧ (∀ i : nat, (Z.to_nat size ≤ i)%nat → data' !! i = data !! i).
Proof.
  intros Hnone. eexists _, _. split; [now apply HandleIo_unhandled |].
  split; [apply memset_length |].
  split; [apply memset_lookup_lt | apply memset_lookup_ge].
Qed.

(** ** Handled accesses *)

Lemma uint64_t_small (z : Z) : 0 ≤ z < 2 ^ 64 → uint64_t z = z.
Proof. intros H. unfold uint64_t. now apply Z.mod_small. Qed.

Lemma uint64_t_range (z : Z) : 0 ≤ uint64_t z < 2 ^ 64.
Proof. unfold uint64_t. apply Z.mod_pos_bound. lia. Qed.

Lemma claims_offset (r : IoResource) (addr : Z) :
  claims r addr = true → 0 ≤ resource_base r →
  uint64_t (addr - resource_base r) = addr - resource_base r.
Proof.
  unfold claims. intros [Hlo Hhi]%andb_prop Hbase.
  apply Z.leb_le in Hlo. apply Z.ltb_lt in Hhi.
  pose proof (uint64_t_range (resource_base r + resource_length r)).
  apply uint64_t_small. lia.
Qed.

(** Without wrap-around the test of the loops is membership in
    [[base, base + length)]. *)
Lemma claims_in_range (r : IoResource) (addr : Z) :
  0 ≤ resource_base r → 0 ≤ resource_length r →
  resource_base r + resource_length r < 2 ^ 64 →
  claims r addr = true ↔
  resource_base r ≤ addr < resource_base r + resource_length r.
Proof.
  intros Hb Hl Hsum. unfold claims. rewrite uint64_t_small by lia.
  rewrite andb_true_iff, Z.leb_le, Z.ltb_lt. done.
Qed.

(** C4, as the code has it: a [HandleIo] that matches a handler invokes
    the owning device's [Write] (when [is_write] is set) or [Read]
    exactly [count] times in sequence, always with
    [offset = port - resource.base], the buffer pointer being
    [i * size] bytes into the buffer at the [i]-th invocation.  With
    [count = 0] no device is invoked; when a handler is matched the
    buffer is returned as it was, and the state is untouched when the
    match is at an index below 3; when no handler claims the port the
    first [size] bytes of the buffer are set to 0xFF all the same. *)
Theorem pio_string_transfer (port : Z) (data : list byte) (size is_write count : Z)
    (ioeventfd : bool) (w : World) :
  (∀ k h,
     lookup_handler port (pio_handlers_ w) 0 = Some (k, h) →
     0 ≤ resource_base (resource h) →
     ∃ data' w' calls,
       HandleIo erase_invalidated read_result port data size is_write count ioeventfd w
       = Ok data' w'
       ∧ device_calls w' = device_calls w ++ calls
       ∧ length calls = Z.to_nat count
       ∧ (∀ i : nat, (i < Z.to_nat count)%nat →
            calls !! i
            = Some (if negb (is_write =? 0)
                    then Write (device h) (resource h)
                           (port - resource_base (resource h))
                           (Z.of_nat i * size) size
                           (bytes_at data (Z.of_nat i * size) size)
                    else Read (device h) (resource h)
                           (port - resource_base (resource h))
                           (Z.of_nat i * size) size))
       ∧ (count = 0 →
          calls = [] ∧ data' = data ∧ ((k < 3)%nat → w' = w)))
  ∧ ((∀ h, h ∈ pio_handlers_ w → claims (resource h) port = false) →
     count = 0 →
     ∃ w',
       HandleIo erase_invalidated read_result port data size is_write count ioeventfd w
       = Ok (memset data xff size) w'
       ∧ device_calls w' = device_calls w
       ∧ pio_handlers_ w' = pio_handlers_ w
       ∧ mmio_handlers_ w' = mmio_handlers_ w).
Proof.
  split.
  - intros k h Hscan Hbase.
    destruct (HandleIo_handled port data size is_write count ioeventfd w k h Hscan)
      as (data' & E & _ & Hsame).
    apply lookup_handler_first_match in Hscan as (k' & Hk' & _ & Hclaims & _).
    eexists data', _, _. split; [exact E |].
    split; [unfold promoted_pio; now destruct (3 <=? k)%nat |].
    split; [unfold pio_calls; now rewrite length_fmap, length_seq |].
    split.
    + intros i Hi. unfold pio_calls. rewrite list_lookup_fmap.
      rewrite lookup_seq_lt by done. simpl. unfold pio_call.
      rewrite (claims_offset _ _ Hclaims Hbase).
      replace (0 + Z.of_nat i * size) with (Z.of_nat i * size) by lia.
      reflexivity.
    + intros ->. simpl. split; [done |]. split; [apply Hsame; now right |].
      intros Hlt. unfold promoted_pio.
      destruct (3 <=? k)%nat eqn:E3; [apply Nat.leb_le in E3; lia |].
      apply with_device_calls_nil.
  - intros Hnone _. eexists. split; [now apply HandleIo_unhandled |].
    now destruct (debug w).
Qed.

(** C7: [HandleMmio] hands the access to the first handler in table
    order whose resource claims the address, calling that device once
    with [offset = address - resource.base]; the test is
    [resource.base <= address < resource.base + resource.length], so
    the last address [base + length - 1] of a resource matches it and
    [base + length] does not. *)
Theorem mmio_first_match (base : Z) (data : list byte) (size is_write : Z)
    (ioeventfd : bool) (w : World) (k : nat) (h : IoHandler) :
  first_match base (mmio_handlers_ w) k h →
  0 ≤ resource_base (resource h) →
  (∃ data' w',
     HandleMmio erase_invalidated read_result base data size is_write ioeventfd w = Ok data' w'
     ∧ device_calls w'
       = device_calls w ++
         [if negb (is_write =? 0)
          then Write (device h) (resource h) (base - resource_base (resource h))
                 0 size (bytes_at data 0 size)
          else Read (device h) (resource h) (base - resource_base (resource h))
                 0 size])
  ∧ (∀ r : IoResource,
       0 ≤ resource_base r → 0 < resource_length r →
       resource_base r + resource_length r < 2 ^ 64 →
       (∀ addr, claims r addr = true ↔
                resource_base r ≤ addr < resource_base r + resource_length r)
       ∧ claims r (resource_base r + resource_length r - 1) = true
       ∧ claims r (resource_base r + resource_length r) = false).
Proof.
  intros Hfirst Hbase. split.
  - pose proof Hfirst as (_ & Hclaims & _).
    apply (lookup_handler_Some base _ 0) in Hfirst. simpl in Hfirst.
    destruct (HandleMmio_handled base data size is_write ioeventfd w k h Hfirst)
      as (data' & E).
    eexists _, _. split; [exact E |].
    unfold mmio_call. rewrite (claims_offset _ _ Hclaims Hbase).
    unfold promoted_mmio. now destruct (3 <=? k)%nat.
  - intros r Hb Hl Hsum.
    assert (∀ addr, claims r addr = true ↔
                    resource_base r ≤ addr < resource_base r + resource_length r)
      as Hrange by (intros addr; apply claims_in_range; lia).
    split; [exact Hrange |]. split.
    + apply Hrange. lia.
    + apply not_true_is_false. rewrite Hrange. lia.
Qed.

End Dispatch.

(** ** The GSI routing mirror *)

Section GsiRouting.

Variable kvm_ioctl : list KvmRequest → KvmRequest → Z.

Lemma UpdateGsiRoutingTable_Ok (w : World) :
  kvm_ioctl (kvm_requests w)
    (KVM_SET_GSI_ROUTING (Z.of_nat (length (gsi_routing_table_ w)))
       (gsi_routing_table_ w)) = 0 →
  UpdateGsiRoutingTable kvm_ioctl w
  = Ok tt (with_kvm_requests
             (λ rs, rs ++ [KVM_SET_GSI_ROUTING
                             (Z.of_nat (length (gsi_routing_table_ w)))
                             (gsi_routing_table_ w)]) w).
Proof.
  intros Hret. unfold UpdateGsiRoutingTable, ioctl. unfold_M. cbn beta.
  now rewrite Hret.
Qed.

(** Whatever the kernel answers, pushing the table changes nothing in
    the manager. *)
Lemma UpdateGsiRoutingTable_inv (w w' : World) :
  UpdateGsiRoutingTable kvm_ioctl w = Ok tt w' →
  gsi_routing_table_ w' = gsi_routing_table_ w ∧ next_gsi_ w' = next_gsi_ w.
Proof.
  unfold UpdateGsiRoutingTable, ioctl. unfold_M. cbn beta.
  destruct (negb _); [done |]. now intros [= <-].
Qed.

Lemma irqfd_Ok (trigger_fd gsi irqfd_flags : Z) (w : World) :
  kernel_accepts kvm_ioctl →
  irqfd kvm_ioctl trigger_fd gsi irqfd_flags w
  = Ok tt (with_kvm_requests
             (λ rs, rs ++ [KVM_IRQFD (uint32_t trigger_fd) (uint32_t gsi) irqfd_flags]) w).
Proof.
  intros Hk. unfold irqfd, ioctl. unfold_M. cbn beta. now rewrite Hk.
Qed.

Lemma irqfd_inv (trigger_fd gsi irqfd_flags : Z) (w w' : World) :
  irqfd kvm_ioctl trigger_fd gsi irqfd_flags w = Ok tt w' →
  gsi_routing_table_ w' = gsi_routing_table_ w ∧ next_gsi_ w' = next_gsi_ w.
Proof.
  unfold irqfd, ioctl. unfold_M. cbn beta.
  destruct (_ <? 0); [done |]. now intros [= <-].
Qed.

Lemma with_gsi_routing_table_app (l1 l2 : list kvm_irq_routing_entry) (w : World) :
  with_gsi_routing_table (λ t, t ++ l2) (with_gsi_routing_table (λ t, t ++ l1) w)
  = with_gsi_routing_table (λ t, t ++ (l1 ++ l2)) w.
Proof. unfold with_gsi_routing_table; simpl. now rewrite <- app_assoc. Qed.

Lemma with_gsi_routing_table_nil (w : World) :
  with_gsi_routing_table (λ t, t ++ []) w = w.
Proof. destruct w; unfold with_gsi_routing_table; simpl. now rewrite app_nil_r. Qed.

Lemma for_uint_appends (routes : Z → list kvm_irq_routing_entry)
    (body : Z → M unit) (i : Z) (n : nat) (w : World) :
  (∀ j w0, body j w0 = Ok tt (with_gsi_routing_table (λ t, t ++ routes j) w0)) →
  for_uint i n body w
  = Ok tt (with_gsi_routing_table (λ t, t ++ loop_routes routes i n) w).
Proof.
  intros Hbody. revert i w. induction n as [|n IH]; intros i w; simpl.
  - unfold_M. now rewrite with_gsi_routing_table_nil.
  - rewrite (bind_Ok _ _ _ _ _ (Hbody i w)), IH.
    now rewrite with_gsi_routing_table_app.
Qed.

(** The three loops of [SetupGsiRoutingTable] append the initial
    routes. *)
Lemma SetupGsiRoutingTable_Ok (w : World) :
  let table := gsi_routing_table_ w ++ initial_routes in
  kvm_ioctl (kvm_requests w)
    (KVM_SET_GSI_ROUTING (Z.of_nat (length table)) table) = 0 →
  ∃ w', SetupGsiRoutingTable kvm_ioctl w = Ok tt w'
        ∧ gsi_routing_table_ w' = table
        ∧ next_gsi_ w' = 24.
Proof.
  intros table Hret.
  set (w1 := with_next_gsi (λ _, 24)
               (with_gsi_routing_table (λ t, t ++ initial_routes) w)).
  assert (kvm_ioctl (kvm_requests w1)
            (KVM_SET_GSI_ROUTING (Z.of_nat (length (gsi_routing_table_ w1)))
               (gsi_routing_table_ w1)) = 0) as Hret1 by exact Hret.
  pose proof (UpdateGsiRoutingTable_Ok w1 Hret1) as E.
  exists (with_kvm_requests
            (λ rs, rs ++ [KVM_SET_GSI_ROUTING
                            (Z.of_nat (length (gsi_routing_table_ w1)))
                            (gsi_routing_table_ w1)]) w1).
  split; [| split; reflexivity].
  rewrite <- E. unfold SetupGsiRoutingTable.
  erewrite bind_Ok; cycle 1.
  { apply (for_uint_appends (λ i, if negb (i =? 2) then [irqchip_route i 0 i] else [])).
    intros j w0. unfold add_irq_routing. unfold_M.
    destruct (negb (j =? 2)); [done | now rewrite with_gsi_routing_table_nil]. }
  erewrite bind_Ok; cycle 1.
  { apply (for_uint_appends (λ i, [irqchip_route (8 + i) 1 i])). done. }
  erewrite bind_Ok; cycle 1.
  { apply (for_uint_appends
             (λ i, if i =? 0 then [irqchip_route i 2 2]
                   else if negb (i =? 2) then [irqchip_route i 2 i] else [])).
    intros j w0. unfold add_irq_routing. unfold_M.
    destruct (j =? 0); [done |].
    destruct (negb (j =? 2)); [done | now rewrite with_gsi_routing_table_nil]. }
  rewrite !with_gsi_routing_table_app.
  unfold_M. reflexivity.
Qed.

(** C2: run on a manager whose mirror is still empty, with the kernel
    accepting the table, [SetupGsiRoutingTable] returns and leaves in
    the mirror exactly 38 entries: the 7 master-PIC entries (chip 0,
    gsi 0, 1, 3..7, pin = gsi), the 8 slave-PIC entries (chip 1, gsi
    8..15, pin = gsi - 8) and the 23 IOAPIC entries (chip 2: gsi 0 on
    pin 2, then gsi 1 and 3..23 on pin = gsi); [next_gsi_] is 24. *)
Theorem setup_gsi_routing_table (w : World) :
  gsi_routing_table_ w = [] →
  kvm_ioctl (kvm_requests w) (KVM_SET_GSI_ROUTING 38 initial_routes) = 0 →
  ∃ w', SetupGsiRoutingTable kvm_ioctl w = Ok tt w'
        ∧ gsi_routing_table_ w'
          = pic_master_routes ++ pic_slave_routes ++ ioapic_routes
        ∧ length (gsi_routing_table_ w') = 38%nat
        ∧ length pic_master_routes = 7%nat
        ∧ length pic_slave_routes = 8%nat
        ∧ length ioapic_routes = 23%nat
        ∧ next_gsi_ w' = 24.
Proof.
  intros Hempty Hret.
  destruct (SetupGsiRoutingTable_Ok w) as (w' & E & Htable & Hnext).
  { rewrite Hempty. exact Hret. }
  exists w'. rewrite Htable, Hempty. done.
Qed.

(** ** Missing entries *)

Lemma UpdateMsiRoute_missing (gsi address data trigger_fd : Z) (w : World) :
  (∀ e, e ∈ gsi_routing_table_ w → entry_gsi e ≠ uint32_t gsi) →
  UpdateMsiRoute kvm_ioctl gsi address data trigger_fd w = Panic "not found gsi" w.
Proof.
  intros Hnone. unfold UpdateMsiRoute. unfold_M. cbn beta.
  assert (list_find (λ entry, entry_gsi entry = uint32_t gsi) (gsi_routing_table_ w)
          = None) as ->; [| done].
  apply list_find_None, Forall_forall. exact Hnone.
Qed.

(** C8: [UpdateMsiRoute] on a gsi that no entry of the mirror carries
    ends in [MV_PANIC], whatever the other arguments are, with the world
    (the mirror in particular) as it was before the call; it does not
    return. *)
Theorem update_msi_route_missing_gsi_is_fatal (gsi address data trigger_fd : Z)
    (w : World) :
  (∀ e, e ∈ gsi_routing_table_ w → entry_gsi e ≠ uint32_t gsi) →
  (∃ msg w', UpdateMsiRoute kvm_ioctl gsi address data trigger_fd w = Panic msg w'
             ∧ gsi_routing_table_ w' = gsi_routing_table_ w
             ∧ w' = w)
  ∧ (∀ w', UpdateMsiRoute kvm_ioctl gsi address data trigger_fd w ≠ Ok tt w').
Proof.
  intros Hnone. rewrite (UpdateMsiRoute_missing _ _ _ _ _ Hnone).
  split; [eauto | done].
Qed.

(** C10: [UnregisterIoEvent(device, type, address)] with no live event
    of that device, address and PIO/MMIO kind returns normally and
    changes nothing at all (the set of events, both handler tables and
    the mirror included), where [UpdateMsiRoute] on a gsi that is
    missing from the mirror panics. *)
Theorem unregister_missing_ioevent_returns (device : Device) (type : IoResourceType)
    (address : Z) (w : World) :
  (∀ e, e ∈ ioevents_ w → ¬ ioevent_matches device type address e) →
  UnregisterIoEvent kvm_ioctl device type address w = Ok tt w
  ∧ (∀ gsi a d fd,
       (∀ e, e ∈ gsi_routing_table_ w → entry_gsi e ≠ uint32_t gsi) →
       ∃ msg, UpdateMsiRoute kvm_ioctl gsi a d fd w = Panic msg w).
Proof.
  intros Hnone. split.
  - unfold UnregisterIoEvent. unfold_M. cbn beta.
    assert (list_find (ioevent_matches device type address) (ioevents_ w) = None)
      as ->; [| done].
    apply list_find_None, Forall_forall. exact Hnone.
  - intros gsi a d fd Hmissing. eexists. now apply UpdateMsiRoute_missing.
Qed.

(** ** MSI routes *)

Lemma bind_Ok_inv {A B : Type} (m : M A) (f : A → M B) (w w'' : World) (b : B) :
  (m ≫= f) w = Ok b w'' → ∃ a w', m w = Ok a w' ∧ f a w' = Ok b w''.
Proof. unfold mbind, M_bind. destruct (m w) as [a w' | msg w']; [eauto | done]. Qed.

Lemma when_irqfd_inv (b : bool) (trigger_fd gsi irqfd_flags : Z) (w w' : World) :
  when b (irqfd kvm_ioctl trigger_fd gsi irqfd_flags) w = Ok tt w' →
  gsi_routing_table_ w' = gsi_routing_table_ w ∧ next_gsi_ w' = next_gsi_ w.
Proof.
  destruct b; simpl; [apply irqfd_inv |]. unfold_M. now intros [= <-].
Qed.

Lemma AddMsiRoute_inv (address data trigger_fd : Z) (w w' : World) (gsi : Z) :
  AddMsiRoute kvm_ioctl address data trigger_fd w = Ok gsi w' →
  gsi = next_gsi_ w
  ∧ next_gsi_ w' = int (next_gsi_ w + 1)
  ∧ gsi_routing_table_ w'
    = gsi_routing_table_ w ++ [msi_route (uint32_t (next_gsi_ w)) address data].
Proof.
  unfold AddMsiRoute. intros H.
  apply bind_Ok_inv in H as (w0 & w0' & Hget & H). injection Hget as <- <-.
  apply bind_Ok_inv in H as ([] & w1 & Hmod & H). injection Hmod as <-.
  apply bind_Ok_inv in H as ([] & w2 & Hmod & H). injection Hmod as <-.
  apply bind_Ok_inv in H as ([] & w3 & Hupd & H).
  apply bind_Ok_inv in H as ([] & w4 & Hirq & H). injection H as <- <-.
  apply UpdateGsiRoutingTable_inv in Hupd as [Ht3 Hn3].
  apply when_irqfd_inv in Hirq as [Ht4 Hn4].
  rewrite Ht4, Ht3, Hn4, Hn3. done.
Qed.

Lemma AddMsiRoute_Ok (address data trigger_fd : Z) (w : World) :
  kernel_accepts kvm_ioctl →
  ∃ w', AddMsiRoute kvm_ioctl address data trigger_fd w = Ok (next_gsi_ w) w'.
Proof.
  intros Hk. unfold AddMsiRoute.
  erewrite bind_Ok by reflexivity.
  erewrite bind_Ok by reflexivity.
  erewrite bind_Ok by reflexivity.
  erewrite bind_Ok by (apply UpdateGsiRoutingTable_Ok, Hk).
  destruct (negb (trigger_fd =? -1)); simpl when.
  - erewrite bind_Ok by (now apply irqfd_Ok). eauto.
  - erewrite bind_Ok by reflexivity. eauto.
Qed.

Lemma UpdateMsiRoute_inv (gsi address data trigger_fd : Z) (w w' : World) :
  UpdateMsiRoute kvm_ioctl gsi address data trigger_fd w = Ok tt w' →
  next_gsi_ w' = next_gsi_ w
  ∧ ∃ it e,
      list_find (λ entry, entry_gsi entry = uint32_t gsi) (gsi_routing_table_ w)
      = Some (it, e)
      ∧ gsi_routing_table_ w'
        = if address =? 0 then delete it (gsi_routing_table_ w)
          else alter (set_msi address data) it (gsi_routing_table_ w).
Proof.
  unfold UpdateMsiRoute. intros H.
  apply bind_Ok_inv in H as (w0 & w0' & Hget & H). injection Hget as <- <-.
  apply bind_Ok_inv in H as ([] & w1 & H & Hupd).
  apply UpdateGsiRoutingTable_inv in Hupd as [Ht Hn]. rewrite Ht, Hn. clear Ht Hn.
  destruct (list_find _ _) as [[it e] |]; [| done].
  destruct (address =? 0).
  - apply bind_Ok_inv in H as ([] & w2 & Hirq & H). injection H as <-.
    apply when_irqfd_inv in Hirq as [Ht Hn]. simpl. rewrite Ht, Hn. eauto.
  - apply bind_Ok_inv in H as ([] & w2 & Hmod & Hirq). injection Hmod as <-.
    apply when_irqfd_inv in Hirq as [Ht Hn]. rewrite Ht, Hn. simpl. eauto.
Qed.

Lemma UpdateMsiRoute_Ok (gsi address data trigger_fd : Z) (w : World)
    (it : nat) (e : kvm_irq_routing_entry) :
  kernel_accepts kvm_ioctl →
  list_find (λ entry, entry_gsi entry = uint32_t gsi) (gsi_routing_table_ w)
  = Some (it, e) →
  ∃ w', UpdateMsiRoute kvm_ioctl gsi address data trigger_fd w = Ok tt w'.
Proof.
  intros Hk Hfind. unfold UpdateMsiRoute.
  assert (∀ b fd g fl w0, ∃ w0',
            when b (irqfd kvm_ioctl fd g fl) w0 = Ok tt w0') as Hwhen.
  { intros [] fd g fl w0; simpl; [rewrite irqfd_Ok by done |]; eauto. }
  erewrite bind_Ok by reflexivity. rewrite Hfind.
  destruct (address =? 0).
  - destruct (Hwhen (negb (trigger_fd =? -1)) trigger_fd gsi KVM_IRQFD_FLAG_DEASSIGN w)
      as [w1 E1].
    erewrite bind_Ok; cycle 1.
    { erewrite bind_Ok by exact E1. reflexivity. }
    rewrite UpdateGsiRoutingTable_Ok by apply Hk. eauto.
  - destruct (Hwhen (negb (trigger_fd =? -1)) trigger_fd gsi 0
                (with_gsi_routing_table (alter (set_msi address data) it) w))
      as [w1 E1].
    erewrite bind_Ok; cycle 1.
    { erewrite bind_Ok by reflexivity. exact E1. }
    rewrite UpdateGsiRoutingTable_Ok by apply Hk. eauto.
Qed.

End GsiRouting.

(** ** Allocation of gsi numbers *)

Lemma uint32_t_small (z : Z) : 0 ≤ z < 2 ^ 32 → uint32_t z = z.
Proof. intros H. unfold uint32_t. now apply Z.mod_small. Qed.

Lemma int_small (z : Z) : - 2 ^ 31 ≤ z < 2 ^ 31 → int z = z.
Proof. intros H. unfold int. rewrite Z.mod_small; lia. Qed.

Lemma msi_gsis_cons (e : kvm_irq_routing_entry) (table : list kvm_irq_routing_entry) :
  msi_gsis (e :: table)
  = if decide (is_msi e) then entry_gsi e :: msi_gsis table else msi_gsis table.
Proof. unfold msi_gsis. rewrite filter_cons. now destruct (decide (is_msi e)). Qed.

Lemma msi_gsis_app (t1 t2 : list kvm_irq_routing_entry) :
  msi_gsis (t1 ++ t2) = msi_gsis t1 ++ msi_gsis t2.
Proof. unfold msi_gsis. now rewrite filter_app, fmap_app. Qed.

Lemma elem_of_msi_gsis (e : kvm_irq_routing_entry) (table : list kvm_irq_routing_entry) :
  e ∈ table → is_msi e → entry_gsi e ∈ msi_gsis table.
Proof.
  intros Hin Hmsi. unfold msi_gsis. apply list_elem_of_fmap_2.
  now apply list_elem_of_filter.
Qed.

Lemma msi_gsis_delete (it : nat) (table : list kvm_irq_routing_entry) :
  msi_gsis (delete it table) `sublist_of` msi_gsis table.
Proof.
  revert it. induction table as [|e table IH]; intros [|it]; simpl; try done.
  - rewrite msi_gsis_cons. destruct (decide (is_msi e)); [now constructor | done].
  - rewrite !msi_gsis_cons. destruct (decide (is_msi e)); [constructor |]; apply IH.
Qed.

Lemma msi_gsis_alter (f : kvm_irq_routing_entry → kvm_irq_routing_entry) (it : nat)
    (table : list kvm_irq_routing_entry) :
  (∀ e, entry_type (f e) = entry_type e ∧ entry_gsi (f e) = entry_gsi e) →
  msi_gsis (alter f it table) = msi_gsis table.
Proof.
  intros Hf. revert it. induction table as [|e table IH]; intros [|it]; try done.
  - change (alter f 0%nat (e :: table)) with (f e :: table).
    rewrite !msi_gsis_cons. destruct (Hf e) as [Ht Hg]. rewrite Hg.
    destruct (decide (is_msi (f e))) as [H1 | H1], (decide (is_msi e)) as [H2 | H2];
      unfold is_msi in H1, H2; congruence.
  - change (alter f (S it) (e :: table)) with (e :: alter f it table).
    rewrite !msi_gsis_cons, IH. done.
Qed.

Lemma NoDup_msi_gsis_lookup (table : list kvm_irq_routing_entry) (i j : nat)
    (e1 e2 : kvm_irq_routing_entry) :
  NoDup (msi_gsis table) → i ≠ j →
  table !! i = Some e1 → table !! j = Some e2 →
  is_msi e1 → is_msi e2 → entry_gsi e1 ≠ entry_gsi e2.
Proof.
  revert i j. induction table as [|e table IH]; intros i j Hnd Hij Hi Hj H1 H2; [done |].
  rewrite msi_gsis_cons in Hnd.
  destruct i as [|i], j as [|j]; simpl in Hi, Hj; try done.
  - injection Hi as ->. rewrite decide_True in Hnd by done.
    apply NoDup_cons in Hnd as [Hnotin _]. intros Heq. apply Hnotin. rewrite Heq.
    apply elem_of_msi_gsis; [| done]. eapply list_elem_of_lookup_2, Hj.
  - injection Hj as ->. rewrite decide_True in Hnd by done.
    apply NoDup_cons in Hnd as [Hnotin _]. intros Heq. apply Hnotin. rewrite <- Heq.
    apply elem_of_msi_gsis; [| done]. eapply list_elem_of_lookup_2, Hi.
  - apply (IH i j); try done; [| lia].
    destruct (decide (is_msi e)); [now apply NoDup_cons in Hnd | done].
Qed.

Lemma gsi_invariant_msi_gsi_unique (w : World) :
  gsi_invariant w → msi_gsi_unique (gsi_routing_table_ w).
Proof.
  intros [Hnext Hrange Hnd] i j e1 e2 Hij Hi Hj Hmsi.
  pose proof (Forall_lookup_1 _ _ _ _ Hrange Hi) as R1.
  pose proof (Forall_lookup_1 _ _ _ _ Hrange Hj) as R2.
  unfold gsi_in_range in R1, R2.
  destruct (decide (is_msi e1)), (decide (is_msi e2)); [| lia | lia | tauto].
  now apply (NoDup_msi_gsis_lookup (gsi_routing_table_ w) i j).
Qed.

Lemma gsi_invariant_initial (w : World) :
  gsi_routing_table_ w = initial_routes → next_gsi_ w = 24 → gsi_invariant w.
Proof.
  intros Ht Hn. split; rewrite ?Ht, ?Hn.
  - unfold INT_MAX. lia.
  - unfold initial_routes, pic_master_routes, pic_slave_routes, ioapic_routes.
    simpl. repeat constructor; unfold gsi_in_range; simpl; lia.
  - vm_compute. constructor.
Qed.

Section MsiRoutes.

Variable kvm_ioctl : list KvmRequest → KvmRequest → Z.

Lemma gsi_in_range_mono (n n' : Z) (e : kvm_irq_routing_entry) :
  n ≤ n' → gsi_in_range n e → gsi_in_range n' e.
Proof. unfold gsi_in_range. destruct (decide (is_msi e)); lia. Qed.

Lemma AddMsiRoute_preserves (address data trigger_fd : Z) (w w' : World) (gsi : Z) :
  gsi_invariant w → next_gsi_ w < INT_MAX →
  AddMsiRoute kvm_ioctl address data trigger_fd w = Ok gsi w' →
  gsi_invariant w'
  ∧ next_gsi_ w' = next_gsi_ w + 1
  ∧ gsi_routing_table_ w'
    = gsi_routing_table_ w ++ [msi_route (next_gsi_ w) address data].
Proof.
  intros [Hnext Hrange Hnd] Hroom (_ & Hn & Ht)%AddMsiRoute_inv.
  unfold INT_MAX in *.
  rewrite int_small in Hn by lia. rewrite uint32_t_small in Ht by lia.
  split; [| done]. split; rewrite ?Hn, ?Ht.
  - unfold INT_MAX. lia.
  - apply Forall_app. split.
    + eapply Forall_impl; [exact Hrange |]. intros e. apply gsi_in_range_mono. lia.
    + apply Forall_singleton. unfold gsi_in_range.
      rewrite decide_True by reflexivity. simpl. lia.
  - rewrite msi_gsis_app. apply NoDup_app. split; [done |]. split.
    + intros g Hg Hin. rewrite msi_gsis_cons, decide_True in Hin by reflexivity.
      apply list_elem_of_singleton in Hin. simpl in Hin. subst g.
      unfold msi_gsis in Hg. apply list_elem_of_fmap in Hg as (e & Hge & He).
      apply list_elem_of_filter in He as [Hmsi He].
      rewrite Forall_forall in Hrange. specialize (Hrange e He).
      unfold gsi_in_range in Hrange. rewrite decide_True in Hrange by done. lia.
    + rewrite msi_gsis_cons, decide_True by reflexivity. apply NoDup_singleton.
Qed.

Lemma UpdateMsiRoute_preserves (gsi address data trigger_fd : Z) (w w' : World) :
  gsi_invariant w →
  UpdateMsiRoute kvm_ioctl gsi address data trigger_fd w = Ok tt w' →
  gsi_invariant w' ∧ next_gsi_ w' = next_gsi_ w.
Proof.
  intros [Hnext Hrange Hnd] (Hn & it & e & _ & Ht)%UpdateMsiRoute_inv.
  split; [| done]. split; rewrite ?Hn, ?Ht; [done | |]; destruct (address =? 0).
  - now apply Forall_delete.
  - apply Forall_alter; [done |]. intros e' _. unfold gsi_in_range, is_msi. done.
  - eapply sublist_NoDup; [exact Hnd | apply msi_gsis_delete].
  - rewrite msi_gsis_alter; done.
Qed.

Lemma run_ops_preserves (ops : list MsiOp) (w w' : World) :
  gsi_invariant w → next_gsi_ w + adds ops ≤ INT_MAX →
  run_ops kvm_ioctl ops w = Ok tt w' →
  gsi_invariant w' ∧ next_gsi_ w' = next_gsi_ w + adds ops.
Proof.
  revert w. induction ops as [|op rest IH]; intros w Hinv Hroom Hrun.
  - injection Hrun as <-. simpl. split; [done | lia].
  - assert (0 ≤ adds rest) as Hpos.
    { clear. induction rest as [|[] rest IH]; simpl; lia. }
    simpl in Hrun. apply bind_Ok_inv in Hrun as ([] & w1 & Hop & Hrun).
    destruct op as [address data trigger_fd | gsi address data trigger_fd];
      simpl in Hop, Hroom |- *.
    + apply bind_Ok_inv in Hop as (gsi & w1' & Hadd & Hret). injection Hret as <-.
      apply AddMsiRoute_preserves in Hadd as (Hinv1 & Hn1 & _); [| done | lia].
      apply IH in Hrun as [Hinv' Hn']; [| done | lia].
      split; [done | lia].
    + apply UpdateMsiRoute_preserves in Hop as (Hinv1 & Hn1); [| done].
      apply IH in Hrun as [Hinv' Hn']; [| done | lia].
      split; [done | lia].
Qed.

(** C5, as the code has it: in every state reached from the initial
    table by [AddMsiRoute] and [UpdateMsiRoute] calls (with [next_gsi_]
    below [INT_MAX]) a call of [AddMsiRoute] that the kernel accepts
    returns the value [next_gsi_] had, increments [next_gsi_] by one and
    appends one MSI entry with that gsi and the given address (as its
    low and high 32 bits) and data.
    Across a sequence of such calls [next_gsi_] never decreases and
    grows by one with each [AddMsiRoute]; an MSI entry shares its gsi
    with no other entry of the mirror, while the IRQCHIP entries of the
    initial table do share gsi numbers among themselves. *)
Theorem msi_gsi_allocation (address data trigger_fd : Z) (ops : list MsiOp)
    (w w' : World) :
  kernel_accepts kvm_ioctl →
  gsi_invariant w →
  next_gsi_ w + adds ops < INT_MAX →
  run_ops kvm_ioctl ops w = Ok tt w' →
  (∃ w'',
     AddMsiRoute kvm_ioctl address data trigger_fd w' = Ok (next_gsi_ w') w''
     ∧ next_gsi_ w'' = next_gsi_ w' + 1
     ∧ gsi_routing_table_ w''
       = gsi_routing_table_ w' ++ [msi_route (next_gsi_ w') address data]
     ∧ (0 ≤ address < 2 ^ 64 →
        msi_of address data = u_msi (address mod 2 ^ 32) (address / 2 ^ 32) data)
     ∧ msi_gsi_unique (gsi_routing_table_ w''))
  ∧ next_gsi_ w' = next_gsi_ w + adds ops
  ∧ next_gsi_ w ≤ next_gsi_ w'
  ∧ msi_gsi_unique (gsi_routing_table_ w')
  ∧ (∀ w0 w1, gsi_routing_table_ w0 = [] →
       SetupGsiRoutingTable kvm_ioctl w0 = Ok tt w1 → gsi_invariant w1).
Proof.
  intros Hk Hinv Hroom Hrun.
  assert (0 ≤ adds ops) as Hpos.
  { clear. induction ops as [|[] rest IH]; simpl; lia. }
  apply run_ops_preserves in Hrun as [Hinv' Hn']; [| done | lia].
  split; [| split; [done | split; [lia | split]]].
  - destruct (AddMsiRoute_Ok kvm_ioctl address data trigger_fd w' Hk) as [w'' E].
    exists w''. split; [exact E |].
    apply AddMsiRoute_preserves in E as (Hinv'' & Hn'' & Ht''); [| done | lia].
    split; [done |]. split; [done |].
    split; [| now apply gsi_invariant_msi_gsi_unique].
    intros Haddr. unfold msi_of. rewrite Z.shiftr_div_pow2 by lia.
    f_equal. apply uint32_t_small. split; [apply Z.div_pos; lia |].
    apply Z.div_lt_upper_bound; lia.
  - now apply gsi_invariant_msi_gsi_unique.
  - intros w0 w1 Hempty Hsetup.
    destruct (SetupGsiRoutingTable_Ok kvm_ioctl w0) as (w1' & E & Ht & Hn);
      [apply Hk |].
    rewrite E in Hsetup. injection Hsetup as <-.
    apply gsi_invariant_initial; [| done]. now rewrite Ht, Hempty.
Qed.

(** C6: in any state of the mirror, with the kernel accepting the
    requests, [AddMsiRoute(a, d, fd)] returns a gsi and
    [UpdateMsiRoute(gsi, 0, 0, fd)] then returns too, having erased from
    the mirror the first entry that carries this gsi; the mirror is back
    at the size it had before the [AddMsiRoute], and is the very table
    it was when no older entry carried that gsi. *)
Theorem add_then_remove_msi_route (address data trigger_fd : Z) (w : World) :
  kernel_accepts kvm_ioctl →
  ∃ gsi w1 w2 it e,
    AddMsiRoute kvm_ioctl address data trigger_fd w = Ok gsi w1
    ∧ gsi = next_gsi_ w
    ∧ length (gsi_routing_table_ w1) = S (length (gsi_routing_table_ w))
    ∧ UpdateMsiRoute kvm_ioctl gsi 0 0 trigger_fd w1 = Ok tt w2
    ∧ gsi_routing_table_ w1 !! it = Some e
    ∧ entry_gsi e = uint32_t gsi
    ∧ gsi_routing_table_ w2 = delete it (gsi_routing_table_ w1)
    ∧ length (gsi_routing_table_ w2) = length (gsi_routing_table_ w)
    ∧ ((∀ e', e' ∈ gsi_routing_table_ w → entry_gsi e' ≠ uint32_t gsi) →
       gsi_routing_table_ w2 = gsi_routing_table_ w).
Proof.
  intros Hk.
  destruct (AddMsiRoute_Ok kvm_ioctl address data trigger_fd w Hk) as [w1 Eadd].
  pose proof (AddMsiRoute_inv _ _ _ _ _ _ _ Eadd) as (_ & _ & Ht1).
  set (P := λ entry, entry_gsi entry = uint32_t (next_gsi_ w)).
  destruct (list_find_elem_of P (gsi_routing_table_ w1)
              (msi_route (uint32_t (next_gsi_ w)) address data))
    as [[it e] Hfind].
  { rewrite Ht1. apply elem_of_app. right. now apply list_elem_of_singleton. }
  { reflexivity. }
  destruct (UpdateMsiRoute_Ok kvm_ioctl (next_gsi_ w) 0 0 trigger_fd w1 it e Hk Hfind)
    as [w2 Eupd].
  pose proof (UpdateMsiRoute_inv _ _ _ _ _ _ _ Eupd) as (_ & it' & e' & Hfind' & Ht2).
  fold P in Hfind'. rewrite Hfind in Hfind'. injection Hfind' as <- <-.
  simpl in Ht2.
  apply list_find_Some in Hfind as (Hat & Hgsi & Hfirst).
  exists (next_gsi_ w), w1, w2, it, e.
  split; [done |]. split; [done |].
  split; [rewrite Ht1, length_app; simpl; lia |].
  split; [done |]. split; [done |]. split; [done |]. split; [done |]. split.
  - rewrite Ht2, length_delete by eauto. rewrite Ht1, length_app. simpl. lia.
  - intros Hfresh. rewrite Ht2, Ht1.
    rewrite Ht1 in Hat. apply lookup_snoc_Some in Hat as [[Hlt Hold] | [-> _]].
    + exfalso. apply (Hfresh e); [eapply list_elem_of_lookup_2, Hold | exact Hgsi].
    + rewrite delete_middle. apply app_nil_r.
Qed.

End MsiRoutes.

(** The handler tables of the example are those that registering its
    devices one after the other builds. *)
Lemma example_world_registered :
  ∃ w, (RegisterIoHandler example_Map (device keyboard) (resource keyboard);;
        RegisterIoHandler example_Map (device hpet) (resource hpet);;
        RegisterIoHandler example_Map (device cmos) (resource cmos);;
        RegisterIoHandler example_Map (device ioapic) (resource ioapic);;
        RegisterIoHandler example_Map (device pit) (resource pit);;
        RegisterIoHandler example_Map (device lapic) (resource lapic);;
        RegisterIoHandler example_Map (device serial) (resource serial);;
        RegisterIoHandler example_Map (device vga) (resource vga);;
        RegisterIoHandler example_Map (device floppy) (resource floppy))
         (new_world false) = Ok tt w
       ∧ pio_handlers_ w = pio_handlers_ example_world
       ∧ mmio_handlers_ w = mmio_handlers_ example_world.
Proof. eexists. split; [lazy; reflexivity |]. split; reflexivity. Qed.


(** A string read of three words from an unclaimed port: the first
    word is set, the third byte is as it was. *)
Lemma unhandled_pio_fills_size_bytes_witness :
  ∃ data' w',
    HandleIo surviving_iterator zero_device 0x378 [x01; x02; x03; x04; x05; x06] 2 0 3 false
      example_world = Ok data' w'
    ∧ data' !! 1%nat = Some xff
    ∧ data' !! 2%nat = Some x03.
Proof.
  destruct (unhandled_pio_fills_size_bytes surviving_iterator zero_device 0x378
              [x01; x02; x03; x04; x05; x06] 2 0 3 false example_world)
    as (data' & w' & E & _ & Hlt & Hge).
  { intros h Hin.
    repeat (apply elem_of_cons in Hin as [-> | Hin]; [reflexivity |]).
    inversion Hin. }
  exists data', w'. split; [exact E |]. split.
  - apply Hlt; simpl; lia.
  - rewrite Hge by (simpl; lia). reflexivity.
Defined.

(** A transfer of zero elements at the parallel port, which no device
    answers, is not without effect: the buffer is filled with 0xFF. *)
Lemma count_zero_fills_unhandled_buffer :
  HandleIo surviving_iterator zero_device 0x378 [x01; x02] 2 0 0 false example_world
  = Ok [xff; xff] example_world
  ∧ [xff; xff] ≠ [x01; x02].
Proof. split; [reflexivity | discriminate]. Qed.

(** A string write of two words to the serial port. *)
Lemma pio_string_transfer_witness :
  ∃ data' w',
    HandleIo surviving_iterator zero_device 0x3f9 [x01; x02; x03; x04] 2 1 2 false example_world
    = Ok data' w'
    ∧ device_calls w'
      = [Write 4%nat (pio 0x3f8 8 "serial") 1 0 2 [x01; x02];
         Write 4%nat (pio 0x3f8 8 "serial") 1 2 2 [x03; x04]].
Proof.
  destruct (pio_string_transfer surviving_iterator zero_device 0x3f9
              [x01; x02; x03; x04] 2 1 2 false example_world) as [Hmatched _].
  destruct (Hmatched 3%nat serial eq_refl)
    as (data' & w' & calls & E & Hc & Hlen & Hi & _).
  { simpl. lia. }
  exists data', w'. split; [exact E |]. rewrite Hc. simpl.
  destruct calls as [|c0 [|c1 [|c2 calls]]]; try discriminate Hlen.
  pose proof (Hi 0%nat ltac:(simpl; lia)) as H0.
  pose proof (Hi 1%nat ltac:(simpl; lia)) as H1.
  simpl in H0, H1. injection H0 as ->. injection H1 as ->. reflexivity.
Defined.

(** A read of an IOAPIC register, and the two ends of its window. *)
Lemma mmio_first_match_witness :
  ∃ data' w',
    HandleMmio surviving_iterator zero_device 0xfec00010 [x00; x00; x00; x00] 4 0 false example_world
    = Ok data' w'
    ∧ device_calls w' = [Read 7%nat (mmio 0xfec00000 0x1000 "ioapic") 0x10 0 4]
    ∧ claims (resource ioapic) 0xfec00fff = true
    ∧ claims (resource ioapic) 0xfec01000 = false.
Proof.
  destruct (mmio_first_match surviving_iterator zero_device 0xfec00010 [x00; x00; x00; x00] 4 0 false
              example_world 1 ioapic) as [(data' & w' & E & Hc) Hbound].
  { split; [reflexivity |]. split; [reflexivity |].
    intros [|j] h' Hj; [intros [= <-]; reflexivity | lia]. }
  { simpl. lia. }
  destruct (Hbound (resource ioapic)) as (_ & Hlast & Hend); [simpl; lia .. |].
  exists data', w'. split; [exact E |]. split; [exact Hc |].
  split; [exact Hlast | exact Hend].
Defined.

Lemma willing_kernel_accepts : kernel_accepts willing_kernel.
Proof. intros history req. reflexivity. Defined.

(** The initial table of a new manager. *)
Lemma setup_gsi_routing_table_witness :
  ∃ w', SetupGsiRoutingTable willing_kernel (new_world false) = Ok tt w'
        ∧ length (gsi_routing_table_ w') = 38%nat
        ∧ next_gsi_ w' = 24.
Proof.
  destruct (setup_gsi_routing_table willing_kernel (new_world false) eq_refl eq_refl)
    as (w' & E & _ & Hlen & _ & _ & _ & Hnext).
  exists w'. split; [exact E |]. split; [exact Hlen | exact Hnext].
Defined.

Lemma example_world_invariant : gsi_invariant example_world.
Proof. now apply gsi_invariant_initial. Defined.

(** Two routes added, the first removed, a third added: 24, 25, then
    26. *)
Lemma msi_gsi_allocation_witness :
  ∃ w' w'',
    run_ops willing_kernel example_ops example_world = Ok tt w'
    ∧ next_gsi_ w' = 26
    ∧ AddMsiRoute willing_kernel 0xfee02000 0x4043 (-1) w' = Ok 26 w''
    ∧ next_gsi_ w'' = 27.
Proof.
  assert (∃ w', run_ops willing_kernel example_ops example_world = Ok tt w')
    as [w' Erun] by (eexists; reflexivity).
  destruct (msi_gsi_allocation willing_kernel 0xfee02000 0x4043 (-1) example_ops
              example_world w' willing_kernel_accepts example_world_invariant
              eq_refl Erun)
    as ((w'' & Eadd & Hn'' & _) & Hn' & _).
  simpl in Hn'. exists w', w''.
  split; [exact Erun |]. split; [exact Hn' |].
  rewrite Hn' in Eadd, Hn''. split; [exact Eadd | exact Hn''].
Defined.

(** After construction and one [AddMsiRoute] the mirror holds two
    entries for gsi 0: the timer line of the master PIC and pin 2 of the
    IOAPIC. *)
Lemma irqchip_entries_share_gsi :
  ∃ w1 w2,
    SetupGsiRoutingTable willing_kernel (new_world false) = Ok tt w1
    ∧ AddMsiRoute willing_kernel 0xfee00000 0x4041 (-1) w1 = Ok 24 w2
    ∧ gsi_routing_table_ w2 !! 0%nat = Some (irqchip_route 0 0 0)
    ∧ gsi_routing_table_ w2 !! 15%nat = Some (irqchip_route 0 2 2)
    ∧ ¬ gsi_unique (gsi_routing_table_ w2).
Proof.
  eexists _, _. split; [lazy; reflexivity |]. split; [lazy; reflexivity |].
  split; [reflexivity |]. split; [reflexivity |].
  intros Hunique.
  apply (Hunique 0%nat 15%nat (irqchip_route 0 0 0) (irqchip_route 0 2 2));
    [discriminate | reflexivity ..].
Qed.

(** Adding a route on the example machine and removing it again gives
    back the initial table. *)
Lemma add_then_remove_msi_route_witness :
  ∃ w1 w2,
    AddMsiRoute willing_kernel 0xfee00000 0x4041 9 example_world = Ok 24 w1
    ∧ UpdateMsiRoute willing_kernel 24 0 0 9 w1 = Ok tt w2
    ∧ gsi_routing_table_ w2 = gsi_routing_table_ example_world.
Proof.
  destruct (add_then_remove_msi_route willing_kernel 0xfee00000 0x4041 9 example_world
              willing_kernel_accepts)
    as (gsi & w1 & w2 & it & e & Eadd & -> & _ & Eupd & _ & _ & _ & _ & Hsame).
  exists w1, w2. split; [exact Eadd |]. split; [exact Eupd |].
  apply Hsame. intros e' Hin.
  repeat (apply elem_of_cons in Hin as [-> | Hin]; [discriminate |]).
  inversion Hin.
Defined.

(** No route has been allocated yet: updating gsi 24 panics. *)
Lemma update_msi_route_missing_gsi_is_fatal_witness :
  ∃ msg, UpdateMsiRoute willing_kernel 24 0xfee00000 0x4041 (-1) example_world
         = Panic msg example_world.
Proof.
  destruct (update_msi_route_missing_gsi_is_fatal willing_kernel 24 0xfee00000 0x4041
              (-1) example_world) as [(msg & w' & E & _ & ->) _].
  { intros e' Hin.
    repeat (apply elem_of_cons in Hin as [-> | Hin]; [discriminate |]).
    inversion Hin. }
  exists msg. exact E.
Defined.

(** The only live event is an MMIO one: unregistering a PIO event at
    its address does nothing. *)
Lemma unregister_missing_ioevent_returns_witness :
  UnregisterIoEvent willing_kernel 10%nat kIoResourceTypePio 0xc000 example_world
  = Ok tt example_world.
Proof.
  destruct (unregister_missing_ioevent_returns willing_kernel 10%nat
              kIoResourceTypePio 0xc000 example_world) as [E _].
  { intros e Hin (_ & _ & Hkind).
    apply elem_of_cons in Hin as [-> | Hin]; [discriminate Hkind | inversion Hin]. }
  exact E.
Defined.

(** * Further properties of the device manager *)

(** ** Dispatch and the handler tables *)

Section DispatchFrame.

Variable erase_invalidated : World → deque.iterator → list IoHandler → list IoHandler.
Variable read_result : list DeviceCall → Device → IoResource → Z → Z → list byte.

Lemma HandleMmio_unhandled (base : Z) (data : list byte) (size is_write : Z)
    (ioeventfd : bool) (w : World) :
  (∀ h, h ∈ mmio_handlers_ w → claims (resource h) base = false) →
  HandleMmio erase_invalidated read_result base data size is_write ioeventfd w
  = Ok data
       (if debug w
        then with_log (λ ls, ls ++ [unhandled_mmio (negb (is_write =? 0)) base size]) w
        else w).
Proof.
  intros Hnone. apply (lookup_handler_None base _ 0) in Hnone.
  unfold HandleMmio. unfold_M. cbn beta. rewrite Hnone.
  now destruct (debug w).
Qed.

Lemma HandleMmio_handled_length (base : Z) (data : list byte) (size is_write : Z)
    (ioeventfd : bool) (w : World) (k : nat) (h : IoHandler) :
  lookup_handler base (mmio_handlers_ w) 0 = Some (k, h) →
  ∃ data',
    HandleMmio erase_invalidated read_result base data size is_write ioeventfd w
    = Ok data' (with_device_calls (λ cs, cs ++ [mmio_call h base is_write size data])
                  (promoted_mmio erase_invalidated k h w))
    ∧ length data' = length data
    ∧ (is_write ≠ 0 → data' = data).
Proof.
  intros Hscan. unfold HandleMmio, promoted_mmio, mmio_call. unfold_M. cbn beta.
  rewrite Hscan. unfold Device_Write, Device_Read. unfold_M.
  destruct (is_write =? 0) eqn:Ew; simpl negb; cbv iota.
  - eexists. split; [now destruct (3 <=? k)%nat |].
    split; [apply length_inserts |]. intros Hw. now apply Z.eqb_eq in Ew.
  - exists data. split; [now destruct (3 <=? k)%nat | done].
Qed.


(** X4: an MMIO access that no handler claims is dropped.  [HandleMmio]
    returns with the buffer exactly as the caller passed it (a read
    gets no 0xFF fill, unlike port I/O), calls no device and changes
    nothing but the debug log, which gets one line in debug mode. *)
Theorem unhandled_mmio_is_dropped (base : Z) (data : list byte) (size is_write : Z)
    (ioeventfd : bool) (w : World) :
  (∀ h, h ∈ mmio_handlers_ w → claims (resource h) base = false) →
  ∃ w',
    HandleMmio erase_invalidated read_result base data size is_write ioeventfd w = Ok data w'
    ∧ device_calls w' = device_calls w
    ∧ mmio_handlers_ w' = mmio_handlers_ w
    ∧ pio_handlers_ w' = pio_handlers_ w
    ∧ (debug w = false → w' = w)
    ∧ (debug w = true →
       log w' = log w ++ [unhandled_mmio (negb (is_write =? 0)) base size]).
Proof.
  intros Hnone. eexists. split; [now apply HandleMmio_unhandled |].
  destruct (debug w); simpl; repeat split; done.
Qed.

End DispatchFrame.

(** ** Registering and unregistering handlers *)

Lemma unregister_first (d : Device) (r : IoResource) (pre post : list IoHandler)
    (h : IoHandler) :
  (∀ h', h' ∈ pre → ¬ registered_at d r h') → registered_at d r h →
  unregister d r (pre ++ h :: post) = pre ++ post.
Proof.
  intros Hpre Hh. unfold unregister.
  assert (list_find (λ h0, device h0 = d ∧ resource_base (resource h0) = resource_base r)
            (pre ++ h :: post) = Some (length pre, h)) as ->.
  { apply list_find_Some. split; [now apply list_lookup_middle |].
    split; [exact Hh |]. intros j y Hj Hlt.
    rewrite lookup_app_l in Hj by done.
    apply Hpre. eapply list_elem_of_lookup_2, Hj. }
  apply delete_middle.
Qed.

Lemma unregister_absent (d : Device) (r : IoResource) (handlers : list IoHandler) :
  (∀ h, h ∈ handlers → ¬ registered_at d r h) → unregister d r handlers = handlers.
Proof.
  intros Hnone. unfold unregister.
  assert (list_find (λ h0, device h0 = d ∧ resource_base (resource h0) = resource_base r)
            handlers = None) as ->; [| done].
  apply list_find_None, Forall_forall. exact Hnone.
Qed.

Lemma with_pio_handlers_id (w : World) (l : list IoHandler) :
  l = pio_handlers_ w → with_pio_handlers (λ _, l) w = w.
Proof. intros ->. now destruct w. Qed.

Lemma with_mmio_handlers_id (w : World) (l : list IoHandler) :
  l = mmio_handlers_ w → with_mmio_handlers (λ _, l) w = w.
Proof. intros ->. now destruct w. Qed.

Section Handlers.

Variable Map : Z → Z → string → MemoryRegion.

(** The handler [RegisterIoHandler] builds for a resource. *)
Lemma RegisterIoHandler_registered_at (d : Device) (r : IoResource)
    (region : option MemoryRegion) :
  registered_at d r {| resource := r; device := d; memory_region := region |}.
Proof. now split. Qed.

(** X5: registering a handler and unregistering it again leaves the
    manager as it was, provided the table of the resource's type held
    no handler of that device at that base before; and unregistering a
    device and base that have no handler changes nothing (no error is
    raised).  A RAM resource is ignored by both functions. *)
Theorem register_unregister_handler_round_trip (d : Device) (r : IoResource)
    (w : World) :
  (∀ h, h ∈ handlers_of (resource_type r) w → ¬ registered_at d r h) →
  (RegisterIoHandler Map d r;; UnregisterIoHandler d r) w = Ok tt w
  ∧ UnregisterIoHandler d r w = Ok tt w.
Proof.
  intros Hfresh. unfold RegisterIoHandler, UnregisterIoHandler, handlers_of in *.
  unfold_M. destruct (resource_type r); simpl; [| | done].
  - split; f_equal.
    + unfold with_pio_handlers; simpl. unfold deque.push_back.
      rewrite unregister_first by (done || now split).
      rewrite app_nil_r. now destruct w.
    + unfold with_pio_handlers. rewrite unregister_absent by done. now destruct w.
  - split; f_equal.
    + unfold with_mmio_handlers; simpl. unfold deque.push_back.
      rewrite unregister_first by (done || now split).
      rewrite app_nil_r. now destruct w.
    + unfold with_mmio_handlers. rewrite unregister_absent by done. now destruct w.
Qed.

(** X6: [UnregisterIoHandler] erases one handler only, the first of the
    device whose resource starts at the base of the resource given (the
    length, name and flag of that resource play no part); the handlers
    before and after it keep their order and the other table is not
    touched. *)
Theorem unregister_handler_erases_first (d : Device) (r : IoResource) (w : World)
    (pre post : list IoHandler) (h : IoHandler) :
  handlers_of (resource_type r) w = pre ++ h :: post →
  registered_at d r h →
  (∀ h', h' ∈ pre → ¬ registered_at d r h') →
  ∃ w',
    UnregisterIoHandler d r w = Ok tt w'
    ∧ handlers_of (resource_type r) w' = pre ++ post
    ∧ (∀ type, type ≠ resource_type r → handlers_of type w' = handlers_of type w)
    ∧ length (handlers_of (resource_type r) w')
      = (length (handlers_of (resource_type r) w) - 1)%nat.
Proof.
  intros Htable Hh Hpre. unfold UnregisterIoHandler, handlers_of in *. unfold_M.
  destruct (resource_type r); simpl.
  - eexists. split; [reflexivity |]. simpl. rewrite Htable.
    rewrite unregister_first by done. split; [done |]. split.
    + now intros [].
    + rewrite !length_app. simpl. lia.
  - eexists. split; [reflexivity |]. simpl. rewrite Htable.
    rewrite unregister_first by done. split; [done |]. split.
    + now intros [].
    + rewrite !length_app. simpl. lia.
  - now destruct pre.
Qed.

(** X7: [RegisterIoHandler] does not look for an existing entry.  A
    resource registered twice is in the table twice, and unregistering
    it once leaves the same table as a single registration: the device
    still answers its addresses. *)
Theorem double_registration_needs_two_unregisters (d : Device) (r : IoResource)
    (w : World) :
  (∀ h, h ∈ handlers_of (resource_type r) w → ¬ registered_at d r h) →
  (RegisterIoHandler Map d r;; RegisterIoHandler Map d r;; UnregisterIoHandler d r) w
  = RegisterIoHandler Map d r w
  ∧ (resource_type r ≠ kIoResourceTypeRam →
     ∃ w1 h,
       RegisterIoHandler Map d r w = Ok tt w1
       ∧ handlers_of (resource_type r) w1 = handlers_of (resource_type r) w ++ [h]
       ∧ resource h = r ∧ device h = d).
Proof.
  intros Hfresh. unfold RegisterIoHandler, UnregisterIoHandler, handlers_of in *.
  unfold_M. destruct (resource_type r); simpl.
  - split.
    + f_equal. unfold with_pio_handlers; simpl. unfold deque.push_back.
      rewrite <- app_assoc. simpl.
      rewrite unregister_first by (done || now split). reflexivity.
    + intros _. eexists _, _. split; [reflexivity |]. simpl. done.
  - split.
    + f_equal. unfold with_mmio_handlers; simpl. unfold deque.push_back.
      rewrite <- app_assoc. simpl.
      rewrite unregister_first by (done || now split). reflexivity.
    + intros _. eexists _, _. split; [reflexivity |]. simpl. done.
  - split; [done |]. now intros [].
Qed.

End Handlers.

(** ** The mirror and the kernel *)

Lemma last_routing_push_app (reqs1 reqs2 : list KvmRequest) :
  last_routing_push (reqs1 ++ reqs2)
  = match last_routing_push reqs2 with
    | Some pushed => Some pushed
    | None => last_routing_push reqs1
    end.
Proof.
  induction reqs1 as [|req reqs1 IH]; simpl.
  - now destruct (last_routing_push reqs2).
  - rewrite IH. now destruct (last_routing_push reqs2).
Qed.

Section MirrorAndKernel.

Variable kvm_ioctl : list KvmRequest → KvmRequest → Z.

Lemma UpdateGsiRoutingTable_pushes (w w' : World) :
  UpdateGsiRoutingTable kvm_ioctl w = Ok tt w' → mirror_pushed w'.
Proof.
  unfold UpdateGsiRoutingTable, ioctl. unfold_M. cbn beta.
  destruct (negb _); [done |]. intros [= <-]. unfold mirror_pushed. simpl.
  now rewrite last_routing_push_app.
Qed.

Lemma when_irqfd_keeps_pushed (b : bool) (trigger_fd gsi irqfd_flags : Z)
    (w w' : World) :
  mirror_pushed w →
  when b (irqfd kvm_ioctl trigger_fd gsi irqfd_flags) w = Ok tt w' →
  mirror_pushed w'.
Proof.
  intros Hp. destruct b; simpl.
  - unfold irqfd, ioctl. unfold_M. cbn beta. destruct (_ <? 0); [done |].
    intros [= <-]. unfold mirror_pushed in *. simpl.
    now rewrite last_routing_push_app.
  - unfold_M. now intros [= <-].
Qed.

Lemma AddMsiRoute_pushes (address data trigger_fd : Z) (w w' : World) (gsi : Z) :
  AddMsiRoute kvm_ioctl address data trigger_fd w = Ok gsi w' → mirror_pushed w'.
Proof.
  unfold AddMsiRoute. intros H.
  apply bind_Ok_inv in H as (w0 & w0' & Hget & H). injection Hget as <- <-.
  apply bind_Ok_inv in H as ([] & w1 & Hmod & H). injection Hmod as <-.
  apply bind_Ok_inv in H as ([] & w2 & Hmod & H). injection Hmod as <-.
  apply bind_Ok_inv in H as ([] & w3 & Hupd & H).
  apply bind_Ok_inv in H as ([] & w4 & Hirq & H). injection H as <- <-.
  apply UpdateGsiRoutingTable_pushes in Hupd.
  now apply when_irqfd_keeps_pushed in Hirq.
Qed.

Lemma UpdateMsiRoute_pushes (gsi address data trigger_fd : Z) (w w' : World) :
  UpdateMsiRoute kvm_ioctl gsi address data trigger_fd w = Ok tt w' → mirror_pushed w'.
Proof.
  unfold UpdateMsiRoute. intros H.
  apply bind_Ok_inv in H as (w0 & w0' & Hget & H). injection Hget as <- <-.
  apply bind_Ok_inv in H as ([] & w1 & _ & Hupd).
  now apply UpdateGsiRoutingTable_pushes in Hupd.
Qed.

Lemma run_ops_pushes (ops : list MsiOp) (w w' : World) :
  ops ≠ [] → run_ops kvm_ioctl ops w = Ok tt w' → mirror_pushed w'.
Proof.
  revert w. induction ops as [|op rest IH]; intros w Hne Hrun; [done |].
  simpl in Hrun. apply bind_Ok_inv in Hrun as ([] & w1 & Hop & Hrun).
  destruct rest as [|op' rest].
  - injection Hrun as <-.
    destruct op as [address data trigger_fd | gsi address data trigger_fd]; simpl in Hop.
    + apply bind_Ok_inv in Hop as (gsi & w1' & Hadd & Hret). injection Hret as <-.
      now apply AddMsiRoute_pushes in Hadd.
    + now apply UpdateMsiRoute_pushes in Hop.
  - now apply (IH w1).
Qed.

(** X8: the mirror is what the kernel holds.  Whenever
    [SetupGsiRoutingTable], [AddMsiRoute], [UpdateMsiRoute] or a
    non-empty sequence of the last two returns, the last
    [KVM_SET_GSI_ROUTING] request made to the kernel carries the mirror
    as it is on return, entry for entry, with [nr] its number of
    entries: no change of the mirror is left unpushed. *)
Theorem routing_mirror_is_pushed (ops : list MsiOp) (w w' : World) :
  ops ≠ [] →
  (run_ops kvm_ioctl ops w = Ok tt w' → mirror_pushed w')
  ∧ (SetupGsiRoutingTable kvm_ioctl w = Ok tt w' → mirror_pushed w')
  ∧ (∀ address data trigger_fd gsi,
       AddMsiRoute kvm_ioctl address data trigger_fd w = Ok gsi w' → mirror_pushed w')
  ∧ (∀ gsi address data trigger_fd,
       UpdateMsiRoute kvm_ioctl gsi address data trigger_fd w = Ok tt w' →
       mirror_pushed w').
Proof.
  intros Hne. split; [now apply run_ops_pushes |]. split; [| split].
  - unfold SetupGsiRoutingTable. intros H.
    apply bind_Ok_inv in H as ([] & w1 & _ & H).
    apply bind_Ok_inv in H as ([] & w2 & _ & H).
    apply bind_Ok_inv in H as ([] & w3 & _ & H).
    apply bind_Ok_inv in H as ([] & w4 & _ & H).
    now apply UpdateGsiRoutingTable_pushes in H.
  - intros address data trigger_fd gsi. apply AddMsiRoute_pushes.
  - intros gsi address data trigger_fd. apply UpdateMsiRoute_pushes.
Qed.

(** X9: how [AddMsiRoute] ends.  Let the kernel answer [r1] to the push
    of the mirror with the new entry and [r2] to the [KVM_IRQFD] request
    that follows.  The call returns the old [next_gsi_] when [r1 = 0]
    and either no descriptor is given ([trigger_fd = -1]) or [r2 >= 0];
    it panics on the push when [r1] is not 0, the entry being in the
    mirror already and no irqfd requested; it panics on the irqfd when
    the push went through and [r2 < 0]. *)
Theorem add_msi_route_outcome (address data trigger_fd : Z) (w : World) :
  let table := gsi_routing_table_ w
               ++ [msi_route (uint32_t (next_gsi_ w)) address data] in
  let push := KVM_SET_GSI_ROUTING (Z.of_nat (length table)) table in
  let bind := KVM_IRQFD (uint32_t trigger_fd) (uint32_t (next_gsi_ w)) 0 in
  let r1 := kvm_ioctl (kvm_requests w) push in
  let r2 := kvm_ioctl (kvm_requests w ++ [push]) bind in
  (r1 = 0 → trigger_fd = -1 →
   ∃ w', AddMsiRoute kvm_ioctl address data trigger_fd w = Ok (next_gsi_ w) w'
         ∧ kvm_requests w' = kvm_requests w ++ [push])
  ∧ (r1 = 0 → trigger_fd ≠ -1 → 0 ≤ r2 →
     ∃ w', AddMsiRoute kvm_ioctl address data trigger_fd w = Ok (next_gsi_ w) w'
           ∧ kvm_requests w' = kvm_requests w ++ [push; bind])
  ∧ (r1 ≠ 0 →
     ∃ w', AddMsiRoute kvm_ioctl address data trigger_fd w
           = Panic "KVM_SET_GSI_ROUTING" w'
           ∧ gsi_routing_table_ w' = table
           ∧ kvm_requests w' = kvm_requests w ++ [push])
  ∧ (r1 = 0 → trigger_fd ≠ -1 → r2 < 0 →
     ∃ w', AddMsiRoute kvm_ioctl address data trigger_fd w
           = Panic "failed to assign irqfd" w'
           ∧ kvm_requests w' = kvm_requests w ++ [push; bind]).
Proof.
  intros table push bind r1 r2.
  unfold AddMsiRoute, UpdateGsiRoutingTable, irqfd, ioctl. unfold_M. cbn beta.
  cbn [gsi_routing_table_ kvm_requests next_gsi_ with_gsi_routing_table
       with_next_gsi with_kvm_requests deque.push_back].
  fold (msi_route (uint32_t (next_gsi_ w)) address data).
  unfold deque.push_back. fold table. fold push. fold r1.
  split; [| split; [| split]].
  - intros -> ->. simpl. eexists. split; reflexivity.
  - intros -> Hfd Hr2. simpl.
    destruct (trigger_fd =? -1) eqn:Efd; [apply Z.eqb_eq in Efd; lia |]. simpl.
    fold bind. fold r2.
    destruct (r2 <? 0) eqn:E2; [apply Z.ltb_lt in E2; lia |].
    eexists. split; [reflexivity |]. simpl. now rewrite <- app_assoc.
  - intros Hr1. destruct (r1 =? 0) eqn:E1; [apply Z.eqb_eq in E1; lia |]. simpl.
    eexists. split; [reflexivity |]. done.
  - intros -> Hfd Hr2. simpl.
    destruct (trigger_fd =? -1) eqn:Efd; [apply Z.eqb_eq in Efd; lia |]. simpl.
    fold bind. fold r2.
    destruct (r2 <? 0) eqn:E2; [| apply Z.ltb_ge in E2; lia].
    eexists. split; [reflexivity |]. simpl. now rewrite <- app_assoc.
Qed.

(** X10: [UpdateMsiRoute] with a non-zero address works in place.  When
    it returns, the mirror has the entries it had, in the same order and
    with the same gsi and type each; only the first entry that carries
    the gsi has changed, its union now holding the split address and the
    data (whatever the type of that entry is: the type is not looked
    at); [next_gsi_] is as before. *)
Theorem update_msi_route_in_place (gsi address data trigger_fd : Z) (w w' : World) :
  address ≠ 0 →
  UpdateMsiRoute kvm_ioctl gsi address data trigger_fd w = Ok tt w' →
  length (gsi_routing_table_ w') = length (gsi_routing_table_ w)
  ∧ entry_gsi <$> gsi_routing_table_ w' = entry_gsi <$> gsi_routing_table_ w
  ∧ entry_type <$> gsi_routing_table_ w' = entry_type <$> gsi_routing_table_ w
  ∧ next_gsi_ w' = next_gsi_ w
  ∧ ∃ it e,
      gsi_routing_table_ w !! it = Some e
      ∧ entry_gsi e = uint32_t gsi
      ∧ (∀ j e', (j < it)%nat → gsi_routing_table_ w !! j = Some e' →
                 entry_gsi e' ≠ uint32_t gsi)
      ∧ gsi_routing_table_ w' !! it
        = Some {| entry_gsi := entry_gsi e; entry_type := entry_type e;
                  entry_flags := entry_flags e; entry_u := msi_of address data |}
      ∧ ∀ j, j ≠ it → gsi_routing_table_ w' !! j = gsi_routing_table_ w !! j.
Proof.
  intros Haddr (Hn & it & e & Hfind & Ht)%UpdateMsiRoute_inv.
  apply Z.eqb_neq in Haddr. rewrite Haddr in Ht. rewrite Ht.
  apply list_find_Some in Hfind as (Hat & Hgsi & Hfirst).
  split; [apply length_alter |].
  split; [rewrite (list_fmap_alter entry_gsi _ id), list_alter_id;
            [done | done | now apply Forall_forall] |].
  split; [rewrite (list_fmap_alter entry_type _ id), list_alter_id;
            [done | done | now apply Forall_forall] |].
  split; [done |]. exists it, e.
  split; [done |]. split; [done |]. split.
  - intros j e' Hj He'. now apply (Hfirst j e').
  - split.
    + rewrite list_lookup_alter_eq, Hat. reflexivity.
    + intros j Hj. now apply list_lookup_alter_ne.
Qed.

(** X11: a route added and then updated is the route added with the
    new address.  With the kernel accepting the requests and no entry
    carrying the gsi to come, [AddMsiRoute(a, d, fd)] followed by
    [UpdateMsiRoute(gsi, a', d', fd')] with [a'] not 0 leaves the mirror
    and [next_gsi_] that [AddMsiRoute(a', d', fd)] alone leaves: the old
    table with one MSI entry for [a'] and [d'] appended. *)
Theorem add_then_update_msi_route (address data trigger_fd : Z)
    (address' data' trigger_fd' : Z) (w : World) :
  kernel_accepts kvm_ioctl →
  address' ≠ 0 →
  (∀ e, e ∈ gsi_routing_table_ w → entry_gsi e ≠ uint32_t (next_gsi_ w)) →
  ∃ w1 w2 w3,
    AddMsiRoute kvm_ioctl address data trigger_fd w = Ok (next_gsi_ w) w1
    ∧ UpdateMsiRoute kvm_ioctl (next_gsi_ w) address' data' trigger_fd' w1 = Ok tt w2
    ∧ AddMsiRoute kvm_ioctl address' data' trigger_fd w = Ok (next_gsi_ w) w3
    ∧ gsi_routing_table_ w2 = gsi_routing_table_ w3
    ∧ next_gsi_ w2 = next_gsi_ w3
    ∧ gsi_routing_table_ w2
      = gsi_routing_table_ w
        ++ [msi_route (uint32_t (next_gsi_ w)) address' data'].
Proof.
  intros Hk Haddr Hfresh.
  destruct (AddMsiRoute_Ok kvm_ioctl address data trigger_fd w Hk) as [w1 E1].
  destruct (AddMsiRoute_Ok kvm_ioctl address' data' trigger_fd w Hk) as [w3 E3].
  pose proof (AddMsiRoute_inv _ _ _ _ _ _ _ E1) as (_ & Hn1 & Ht1).
  pose proof (AddMsiRoute_inv _ _ _ _ _ _ _ E3) as (_ & Hn3 & Ht3).
  assert (list_find (λ entry, entry_gsi entry = uint32_t (next_gsi_ w))
            (gsi_routing_table_ w1)
          = Some (length (gsi_routing_table_ w),
                  msi_route (uint32_t (next_gsi_ w)) address data)) as Hfind.
  { rewrite Ht1. apply list_find_Some. split; [now apply list_lookup_middle |].
    split; [reflexivity |]. intros j y Hj Hlt.
    rewrite lookup_app_l in Hj by done.
    apply Hfresh. eapply list_elem_of_lookup_2, Hj. }
  destruct (UpdateMsiRoute_Ok kvm_ioctl (next_gsi_ w) address' data' trigger_fd' w1
              _ _ Hk Hfind) as [w2 E2].
  pose proof (UpdateMsiRoute_inv _ _ _ _ _ _ _ E2) as (Hn2 & it & e & Hfind' & Ht2).
  rewrite Hfind in Hfind'. injection Hfind' as <- <-.
  apply Z.eqb_neq in Haddr. rewrite Haddr in Ht2.
  assert (gsi_routing_table_ w2
          = gsi_routing_table_ w
            ++ [msi_route (uint32_t (next_gsi_ w)) address' data']) as Ht2'.
  { rewrite Ht2, Ht1.
    replace (length (gsi_routing_table_ w))
      with (length (gsi_routing_table_ w) + 0)%nat at 1 by lia.
    now rewrite alter_app_r. }
  exists w1, w2, w3. split; [done |]. split; [done |]. split; [done |].
  split; [now rewrite Ht2', Ht3 |]. split; [now rewrite Hn2, Hn1, Hn3 | done].
Qed.

End MirrorAndKernel.

(** ** I/O events *)

Lemma byte_of_value (z : Z) : Z.of_N (Byte.to_N (byte_of z)) = z mod 256.
Proof.
  unfold byte_of. pose proof (Z.mod_pos_bound z 256 ltac:(lia)) as Hb.
  destruct (Byte.of_N (Z.to_N (z mod 256))) as [b |] eqn:E.
  - apply Byte.to_of_N in E. rewrite E. lia.
  - apply Byte.of_N_None_iff in E. lia.
Qed.

Lemma le_bytes_length (n : nat) (z : Z) : length (le_bytes n z) = n.
Proof. revert z. induction n as [|n IH]; intros z; simpl; [done | now rewrite IH]. Qed.

Lemma le_value_le_bytes (n : nat) (z : Z) :
  le_value (le_bytes n z) = z mod 256 ^ Z.of_nat n.
Proof.
  revert z. induction n as [|n IH]; intros z.
  - simpl. now rewrite Z.mod_1_r.
  - cbn [le_bytes le_value]. rewrite byte_of_value, IH.
    rewrite Nat2Z.inj_succ, Z.pow_succ_r by lia.
    rewrite Z.rem_mul_r by lia. reflexivity.
Qed.

Lemma le_value_app (a b : list byte) :
  le_value (a ++ b) = le_value a + 256 ^ Z.of_nat (length a) * le_value b.
Proof.
  induction a as [|x a IH]; [simpl; lia |].
  cbn [app le_value length]. rewrite IH, Nat2Z.inj_succ, Z.pow_succ_r by lia. lia.
Qed.

Lemma le_value_replicate_xff (n : nat) :
  le_value (replicate n xff) = 256 ^ Z.of_nat n - 1.
Proof.
  induction n as [|n IH]; [done |].
  cbn [replicate le_value]. rewrite IH, Nat2Z.inj_succ, Z.pow_succ_r by lia.
  change (Z.of_N (Byte.to_N xff)) with 255. lia.
Qed.

Lemma drop_le_bytes (n m : nat) (z : Z) :
  drop n (le_bytes (n + m) z) = le_bytes m (z / 256 ^ Z.of_nat n).
Proof.
  revert z. induction n as [|n IH]; intros z.
  - simpl. now rewrite Z.div_1_r.
  - cbn [Nat.add le_bytes drop]. rewrite IH, Nat2Z.inj_succ, Z.pow_succ_r by lia.
    rewrite Z.div_div by lia. reflexivity.
Qed.

Lemma datamatch_round_trip (event : IoEvent) :
  0 ≤ event_datamatch event < 2 ^ 64 →
  with_datamatch (datamatch_bytes event) event = event.
Proof.
  intros Hdm. unfold with_datamatch, datamatch_bytes. rewrite le_value_le_bytes.
  change (256 ^ Z.of_nat 8) with (2 ^ 64). rewrite Z.mod_small by done.
  now destruct event.
Qed.

Lemma filter_all {A : Type} (P : A → Prop) `{!∀ x, Decision (P x)} (l : list A) :
  (∀ x, x ∈ l → P x) → filter P l = l.
Proof.
  induction l as [|x l IH]; intros Hall; [done |].
  rewrite filter_cons, decide_True by (apply Hall, elem_of_cons; now left).
  f_equal. apply IH. intros y Hy. apply Hall, elem_of_cons. now right.
Qed.

Lemma filter_inserted {A : Type} `{!EqDecision A} (x : A) (place : nat) (l : list A) :
  x ∉ l → filter (λ y, y ≠ x) (take place l ++ x :: drop place l) = l.
Proof.
  intros Hx. rewrite filter_app, filter_cons, decide_False by (intros H; now apply H).
  rewrite <- filter_app, take_drop. apply filter_all. intros y Hy ->. done.
Qed.

Lemma new_IoEvent_matches (fd : Z) (device : Device) (type : IoResourceType)
    (address length datamatch : Z) :
  ioevent_matches device type address
    (new_IoEvent fd device type address length datamatch).
Proof.
  split; [done |]. split; [done |]. simpl.
  destruct (decide (type = kIoResourceTypePio)) as [-> | Hne].
  - rewrite bool_decide_true by done. symmetry. apply bool_decide_true.
    destruct (length =? 0); vm_compute; discriminate.
  - rewrite bool_decide_false by done. symmetry. apply bool_decide_false.
    destruct (length =? 0); intros H; now apply H.
Qed.

Section IoEventProperties.

Variable read_result : list DeviceCall → Device → IoResource → Z → Z → list byte.
Variable kvm_ioctl : list KvmRequest → KvmRequest → Z.

Lemma RegisterIoEvent_Ok (fd : Z) (place : nat) (device : Device)
    (type : IoResourceType) (address length datamatch : Z) (w : World) :
  kernel_accepts kvm_ioctl →
  let event := new_IoEvent fd device type address length datamatch in
  RegisterIoEvent kvm_ioctl fd place device type address length datamatch w
  = Ok event
       (with_ioevents (λ events, take place events ++ event :: drop place events)
          (with_polled_fds (λ fds, fds ++ [fd])
             (with_kvm_requests
                (λ rs, rs ++ [KVM_IOEVENTFD datamatch address length fd
                                (event_flags event)]) w))).
Proof.
  intros Hk event. unfold RegisterIoEvent, ioctl. fold event. unfold_M. cbn beta.
  rewrite Hk. reflexivity.
Qed.

Lemma UnregisterIoEvent_event_Ok (event : IoEvent) (w : World) :
  kernel_accepts kvm_ioctl →
  event_type event ≠ kIoEventFd →
  UnregisterIoEvent_event kvm_ioctl event w
  = Ok tt
       (with_ioevents (filter (λ e, e ≠ event))
          (with_kvm_requests
             (λ rs, rs ++ [KVM_IOEVENTFD (event_datamatch event) (event_address event)
                             (event_length event) (event_fd event)
                             (Z.lor (event_flags event) KVM_IOEVENTFD_FLAG_DEASSIGN)])
             (with_polled_fds (filter (λ fd, fd ≠ event_fd event)) w))).
Proof.
  intros Hk Htype. unfold UnregisterIoEvent_event, ioctl. unfold_M. cbn beta.
  destruct (event_type event); [| | done]; rewrite Hk; reflexivity.
Qed.

Lemma RegisterIoEvent_inv (fd : Z) (place : nat) (device : Device)
    (type : IoResourceType) (address length datamatch : Z) (w w' : World)
    (e : IoEvent) :
  RegisterIoEvent kvm_ioctl fd place device type address length datamatch w = Ok e w' →
  e = new_IoEvent fd device type address length datamatch
  ∧ ioevents_ w' = take place (ioevents_ w) ++ e :: drop place (ioevents_ w).
Proof.
  unfold RegisterIoEvent, ioctl. unfold_M. cbn beta.
  destruct (_ <? 0); [done |]. now intros [= <- <-].
Qed.

Lemma new_IoEvent_type (fd : Z) (device : Device) (type : IoResourceType)
    (address length datamatch : Z) :
  event_type (new_IoEvent fd device type address length datamatch) ≠ kIoEventFd.
Proof. simpl. now destruct (decide (type = kIoResourceTypePio)). Qed.

(** X12: registering an event and unregistering it is a round trip.
    With the kernel accepting the requests and the descriptor not in
    use, [RegisterIoEvent] followed by [UnregisterIoEvent] of the event
    it returned leaves the live events and the polled descriptors as
    they were; the kernel has seen the assignment and then its
    withdrawal, with the same datamatch, address, length and descriptor
    and the same flags plus [KVM_IOEVENTFD_FLAG_DEASSIGN].  The flags
    are DATAMATCH exactly for a non-zero length and PIO exactly for a
    PIO resource. *)
Theorem register_unregister_ioevent_round_trip (fd : Z) (place : nat)
    (device : Device) (type : IoResourceType) (address length datamatch : Z)
    (w : World) :
  kernel_accepts kvm_ioctl →
  fd ∉ polled_fds w →
  (∀ e, e ∈ ioevents_ w → event_fd e ≠ fd) →
  let flags :=
    Z.lor (if length =? 0 then 0 else KVM_IOEVENTFD_FLAG_DATAMATCH)
          (if decide (type = kIoResourceTypePio) then KVM_IOEVENTFD_FLAG_PIO else 0) in
  (RegisterIoEvent kvm_ioctl fd place device type address length datamatch
     ≫= UnregisterIoEvent_event kvm_ioctl) w
  = Ok tt (with_kvm_requests
             (λ rs, rs ++ [KVM_IOEVENTFD datamatch address length fd flags;
                           KVM_IOEVENTFD datamatch address length fd
                             (Z.lor flags KVM_IOEVENTFD_FLAG_DEASSIGN)]) w).
Proof.
  intros Hk Hfd Hfresh flags.
  set (event := new_IoEvent fd device type address length datamatch).
  assert (event_flags event = flags) as Hflags.
  { unfold event, flags, new_IoEvent. simpl.
    destruct (decide (type = kIoResourceTypePio)); [done |]. now rewrite Z.lor_0_r. }
  assert (event ∉ ioevents_ w) as Hnew.
  { intros Hin. now apply (Hfresh event Hin). }
  erewrite bind_Ok by now apply RegisterIoEvent_Ok.
  rewrite UnregisterIoEvent_event_Ok by (done || apply new_IoEvent_type).
  fold event. rewrite Hflags. f_equal.
  unfold with_ioevents, with_kvm_requests, with_polled_fds. simpl.
  rewrite filter_inserted by done.
  rewrite filter_app, filter_all by (intros x Hx ->; done).
  rewrite filter_cons, decide_False by (intros H; now apply H).
  rewrite filter_nil, app_nil_r, <- app_assoc. now destruct w.
Qed.

(** X13: the lookup form finds what was registered.  When no live event
    has the device, address and PIO/MMIO kind given, [RegisterIoEvent]
    for them followed by [UnregisterIoEvent(device, type, address)] is
    [RegisterIoEvent] followed by [UnregisterIoEvent] of the event it
    returned, wherever the new event lies among the others and whatever
    the kernel answers. *)
Theorem unregister_by_address_finds_registered (fd : Z) (place : nat)
    (device : Device) (type : IoResourceType) (address length datamatch : Z)
    (w : World) :
  (∀ e, e ∈ ioevents_ w → ¬ ioevent_matches device type address e) →
  (RegisterIoEvent kvm_ioctl fd place device type address length datamatch;;
   UnregisterIoEvent kvm_ioctl device type address) w
  = (RegisterIoEvent kvm_ioctl fd place device type address length datamatch
       ≫= UnregisterIoEvent_event kvm_ioctl) w.
Proof.
  intros Hnone.
  set (event := new_IoEvent fd device type address length datamatch).
  destruct (RegisterIoEvent kvm_ioctl fd place device type address length datamatch w)
    as [e w1 | msg w1] eqn:E.
  - rewrite (bind_Ok _ _ _ _ _ E). unfold mbind at 1, M_bind. rewrite E.
    apply RegisterIoEvent_inv in E as [-> Hevents]. fold event in Hevents |- *.
    unfold UnregisterIoEvent. unfold_M. cbn beta. rewrite Hevents.
    assert (list_find (ioevent_matches device type address)
              (take place (ioevents_ w) ++ event :: drop place (ioevents_ w))
            = Some (List.length (take place (ioevents_ w)), event)) as ->; [| done].
    apply list_find_Some. split; [now apply list_lookup_middle |].
    split; [apply new_IoEvent_matches |]. intros j y Hj Hlt.
    rewrite lookup_app_l in Hj by done.
    apply Hnone. eapply subseteq_take, list_elem_of_lookup_2, Hj.
  - unfold mbind, M_bind. now rewrite E.
Qed.

End IoEventProperties.

Lemma uint16_t_small (z : Z) : 0 ≤ z < 2 ^ 16 → uint16_t z = z.
Proof. intros H. unfold uint16_t. now apply Z.mod_small. Qed.

Lemma memset_datamatch_value (datamatch length : Z) :
  0 ≤ datamatch < 2 ^ 64 → 0 ≤ length ≤ 8 →
  le_value (memset (le_bytes 8 datamatch) xff length)
  = datamatch - datamatch mod 256 ^ length + 256 ^ length - 1.
Proof.
  intros Hdm Hlen.
  assert (∃ n : nat, (n ≤ 8)%nat ∧ length = Z.of_nat n) as (n & Hn & ->)
    by (exists (Z.to_nat length); lia).
  unfold memset. rewrite le_bytes_length, Nat2Z.id, Nat.min_l by done.
  rewrite le_value_app, le_value_replicate_xff, length_replicate.
  replace 8%nat with (n + (8 - n))%nat at 1 by lia.
  rewrite drop_le_bytes, le_value_le_bytes.
  assert (0 < 256 ^ Z.of_nat n) as Hpos by (apply Z.pow_pos_nonneg; lia).
  assert (2 ^ 64 = 256 ^ Z.of_nat n * 256 ^ Z.of_nat (8 - n)) as Hsplit.
  { rewrite <- Z.pow_add_r by lia. replace (Z.of_nat n + Z.of_nat (8 - n)) with 8 by lia.
    reflexivity. }
  rewrite Z.mod_small.
  - pose proof (Z.div_mod datamatch (256 ^ Z.of_nat n) ltac:(lia)). lia.
  - split; [apply Z.div_pos; lia |].
    apply Z.div_lt_upper_bound; [done |]. rewrite <- Hsplit. lia.
Qed.

Section IoEventDelivery.

Variable erase_invalidated : World → deque.iterator → list IoHandler → list IoHandler.
Variable read_result : list DeviceCall → Device → IoResource → Z → Z → list byte.

Lemma fmap_with_datamatch_id (event : IoEvent) (events : list IoEvent) :
  0 ≤ event_datamatch event < 2 ^ 64 →
  (λ e, if decide (e = event) then with_datamatch (datamatch_bytes event) e else e)
    <$> events = events.
Proof.
  intros Hdm. rewrite <- (list_fmap_id events) at 2. apply list_fmap_ext.
  intros _ e _. destruct (decide (e = event)) as [-> |]; [| done].
  now apply datamatch_round_trip.
Qed.

(** X14: an event that fires is delivered as a write of its datamatch.
    When the descriptor of an MMIO event (resp. a PIO event, whose
    address is a port) becomes readable and a handler claims the
    address of the event, the callback has the device of the first such
    handler called once: [Write], at [offset = address - base], with
    the [length] low bytes of the datamatch as data; the event itself
    is left as it was. *)
Theorem ioevent_is_delivered (event : IoEvent) (w : World) (k : nat) (h : IoHandler) :
  0 ≤ event_datamatch event < 2 ^ 64 →
  0 ≤ event_length event ≤ 8 →
  0 ≤ resource_base (resource h) →
  let delivered w' :=
    device_calls w'
    = device_calls w
      ++ [Write (device h) (resource h)
            (event_address event - resource_base (resource h)) 0
            (event_length event)
            (take (Z.to_nat (event_length event)) (datamatch_bytes event))]
    ∧ ioevents_ w' = ioevents_ w in
  (event_type event = kIoEventMmio →
   first_match (event_address event) (mmio_handlers_ w) k h →
   ∃ w', IoEvent_callback erase_invalidated read_result event w = Ok tt w' ∧ delivered w')
  ∧ (event_type event = kIoEventPio →
     0 ≤ event_address event < 2 ^ 16 →
     first_match (event_address event) (pio_handlers_ w) k h →
     ∃ w', IoEvent_callback erase_invalidated read_result event w = Ok tt w' ∧ delivered w').
Proof.
  intros Hdm Hlen Hbase delivered.
  assert (uint16_t (event_length event) = event_length event) as Hsize
    by (apply uint16_t_small; lia).
  split.
  - intros Htype Hfirst. pose proof Hfirst as (_ & Hclaims & _).
    apply (lookup_handler_Some _ _ 0) in Hfirst. simpl in Hfirst.
    destruct (HandleMmio_handled_length erase_invalidated read_result (event_address event)
                (datamatch_bytes event) (event_length event) 1 true w k h Hfirst)
      as (data' & E & _ & Hsame).
    rewrite Hsame in E by done.
    unfold IoEvent_callback. rewrite Htype, Hsize.
    rewrite (bind_Ok _ _ _ _ _ E). unfold_M. eexists. split; [reflexivity |].
    unfold delivered, mmio_call, promoted_mmio, bytes_at.
    destruct (3 <=? k)%nat; cbn -[datamatch_bytes];
      rewrite (claims_offset _ _ Hclaims Hbase), fmap_with_datamatch_id by done;
      done.
  - intros Htype Hport Hfirst. pose proof Hfirst as (_ & Hclaims & _).
    apply (lookup_handler_Some _ _ 0) in Hfirst. simpl in Hfirst.
    destruct (HandleIo_handled erase_invalidated read_result (event_address event)
                (datamatch_bytes event) (event_length event) 1 1 true w k h Hfirst)
      as (data' & E & _ & Hsame).
    rewrite Hsame in E by now left.
    unfold IoEvent_callback. rewrite Htype, Hsize, uint16_t_small by done.
    rewrite (bind_Ok _ _ _ _ _ E). unfold_M. eexists. split; [reflexivity |].
    unfold delivered, pio_calls, pio_call, promoted_pio, bytes_at.
    destruct (3 <=? k)%nat; cbn -[datamatch_bytes];
      rewrite (claims_offset _ _ Hclaims Hbase), fmap_with_datamatch_id by done;
      done.
Qed.

(** X15: a PIO event that fires on a port without handler loses its
    datamatch.  [HandleIo] then fills the first [length] bytes of the
    buffer with 0xFF, and the buffer is the datamatch field of the
    event: no device is called, and the datamatch of the event has its
    [length] low bytes set to 0xFF from then on (a later
    [UnregisterIoEvent] hands this value to the kernel). *)
Theorem unhandled_pio_ioevent_overwrites_datamatch (event : IoEvent) (w : World) :
  event_type event = kIoEventPio →
  0 ≤ event_datamatch event < 2 ^ 64 →
  0 ≤ event_length event ≤ 8 →
  (∀ h, h ∈ pio_handlers_ w →
        claims (resource h) (uint16_t (event_address event)) = false) →
  let event' :=
    with_datamatch (memset (datamatch_bytes event) xff (event_length event)) event in
  ∃ w',
    IoEvent_callback erase_invalidated read_result event w = Ok tt w'
    ∧ device_calls w' = device_calls w
    ∧ ioevents_ w' = (λ e, if decide (e = event) then event' else e) <$> ioevents_ w
    ∧ event_datamatch event'
      = event_datamatch event - event_datamatch event mod 256 ^ event_length event
        + 256 ^ event_length event - 1.
Proof.
  intros Htype Hdm Hlen Hnone event'.
  assert (uint16_t (event_length event) = event_length event) as Hsize
    by (apply uint16_t_small; lia).
  pose proof (HandleIo_unhandled erase_invalidated read_result (uint16_t (event_address event))
                (datamatch_bytes event) (event_length event) 1 1 true w Hnone) as E.
  unfold IoEvent_callback. rewrite Htype, Hsize.
  rewrite (bind_Ok _ _ _ _ _ E). unfold_M. eexists. split; [reflexivity |].
  split; [now destruct (debug w) |]. split.
  - transitivity
      ((λ e, if decide (e = event)
             then with_datamatch
                    (memset (datamatch_bytes event) xff (event_length event)) e
             else e) <$> ioevents_ w); [now destruct (debug w) |].
    apply list_fmap_ext. intros _ e _. now destruct (decide (e = event)) as [-> |].
  - unfold event', with_datamatch, datamatch_bytes. simpl.
    now apply memset_datamatch_value.
Qed.

End IoEventDelivery.

(** ** On the concrete machine *)

Lemma example_world_mmio_hole (h : IoHandler) :
  h ∈ mmio_handlers_ example_world → claims (resource h) 0xd0000000 = false.
Proof.
  intros Hin. simpl in Hin.
  repeat (apply elem_of_cons in Hin as [-> | Hin]; [reflexivity |]).
  inversion Hin.
Defined.

Lemma example_world_pio_hole (h : IoHandler) :
  h ∈ pio_handlers_ example_world → claims (resource h) 0x500 = false.
Proof.
  intros Hin. simpl in Hin.
  repeat (apply elem_of_cons in Hin as [-> | Hin]; [reflexivity |]).
  inversion Hin.
Defined.

Lemma example_world_no_device_11 (r : IoResource) (h : IoHandler) :
  h ∈ pio_handlers_ example_world → ¬ registered_at 11%nat r h.
Proof.
  intros Hin [Hd _]. simpl in Hin.
  repeat (apply elem_of_cons in Hin as [-> | Hin]; [discriminate Hd |]).
  inversion Hin.
Defined.


Lemma unhandled_mmio_is_dropped_witness :
  HandleMmio surviving_iterator zero_device 0xd0000000 [x01; x02] 2 0 false example_world
  = Ok [x01; x02] example_world.
Proof.
  destruct (unhandled_mmio_is_dropped surviving_iterator zero_device 0xd0000000 [x01; x02] 2 0 false
              example_world example_world_mmio_hole)
    as (w' & E & _ & _ & _ & Hsame & _).
  rewrite (Hsame eq_refl) in E. exact E.
Defined.

Lemma register_unregister_handler_round_trip_witness :
  (RegisterIoHandler example_Map 11%nat (pio 0x500 4 "debug");;
   UnregisterIoHandler 11%nat (pio 0x500 4 "debug")) example_world
  = Ok tt example_world.
Proof.
  destruct (register_unregister_handler_round_trip example_Map 11%nat
              (pio 0x500 4 "debug") example_world) as [E _].
  { exact (example_world_no_device_11 _). }
  exact E.
Defined.

(** Any resource of the CMOS device based at port 0x70 erases its
    handler. *)
Lemma unregister_handler_erases_first_witness :
  ∃ w',
    UnregisterIoHandler 2%nat (pio 0x70 1 "index") example_world = Ok tt w'
    ∧ pio_handlers_ w' = [keyboard; pit; serial; floppy].
Proof.
  destruct (unregister_handler_erases_first 2%nat (pio 0x70 1 "index") example_world
              [keyboard] [pit; serial; floppy] cmos) as (w' & E & Ht & _).
  { reflexivity. }
  { split; reflexivity. }
  { intros h' Hin [Hd _].
    apply elem_of_cons in Hin as [-> | Hin]; [discriminate Hd | inversion Hin]. }
  exists w'. split; [exact E | exact Ht].
Defined.

Lemma double_registration_needs_two_unregisters_witness :
  (RegisterIoHandler example_Map 11%nat (pio 0x500 4 "debug");;
   RegisterIoHandler example_Map 11%nat (pio 0x500 4 "debug");;
   UnregisterIoHandler 11%nat (pio 0x500 4 "debug")) example_world
  = RegisterIoHandler example_Map 11%nat (pio 0x500 4 "debug") example_world.
Proof.
  destruct (double_registration_needs_two_unregisters example_Map 11%nat
              (pio 0x500 4 "debug") example_world) as [E _].
  { exact (example_world_no_device_11 _). }
  exact E.
Defined.

Lemma routing_mirror_is_pushed_witness :
  ∃ w', run_ops willing_kernel example_ops example_world = Ok tt w'
        ∧ mirror_pushed w'.
Proof.
  destruct (run_ops willing_kernel example_ops example_world) as [[] w' | msg w'] eqn:E.
  - exists w'. split; [reflexivity |].
    destruct (routing_mirror_is_pushed willing_kernel example_ops example_world w')
      as [Hrun _]; [discriminate |].
    exact (Hrun E).
  - vm_compute in E. discriminate E.
Defined.

(** The kernel refuses the push: the entry is in the mirror all the
    same. *)
Lemma add_msi_route_outcome_witness :
  ∃ w',
    AddMsiRoute refusing_kernel 0xfee00000 0x4041 (-1) example_world
    = Panic "KVM_SET_GSI_ROUTING" w'
    ∧ length (gsi_routing_table_ w') = 39%nat.
Proof.
  destruct (add_msi_route_outcome refusing_kernel 0xfee00000 0x4041 (-1) example_world)
    as (_ & _ & Hrefused & _).
  destruct Hrefused as (w' & E & Ht & _); [discriminate |].
  exists w'. split; [exact E |]. rewrite Ht. reflexivity.
Defined.

(** The gsi of an IRQCHIP entry is accepted too. *)
Lemma update_msi_route_in_place_witness :
  ∃ w',
    UpdateMsiRoute willing_kernel 5 0xfee00000 0x4041 (-1) example_world = Ok tt w'
    ∧ length (gsi_routing_table_ w') = 38%nat
    ∧ next_gsi_ w' = 24.
Proof.
  destruct (UpdateMsiRoute willing_kernel 5 0xfee00000 0x4041 (-1) example_world)
    as [[] w' | msg w'] eqn:E.
  - exists w'. split; [reflexivity |].
    destruct (update_msi_route_in_place willing_kernel 5 0xfee00000 0x4041 (-1)
                example_world w') as (Hlen & _ & _ & Hnext & _);
      [discriminate | exact E |].
    split; [exact Hlen | exact Hnext].
  - vm_compute in E. discriminate E.
Defined.

Lemma add_then_update_msi_route_witness :
  ∃ w1 w2,
    AddMsiRoute willing_kernel 0xfee00000 0x4041 9 example_world = Ok 24 w1
    ∧ UpdateMsiRoute willing_kernel 24 0xfee01000 0x4042 9 w1 = Ok tt w2
    ∧ gsi_routing_table_ w2
      = gsi_routing_table_ example_world ++ [msi_route 24 0xfee01000 0x4042].
Proof.
  destruct (add_then_update_msi_route willing_kernel 0xfee00000 0x4041 9
              0xfee01000 0x4042 9 example_world willing_kernel_accepts)
    as (w1 & w2 & w3 & Eadd & Eupd & _ & _ & _ & Ht).
  { discriminate. }
  { intros e Hin Hg. simpl in Hin.
    repeat (apply elem_of_cons in Hin as [-> | Hin]; [discriminate Hg |]).
    inversion Hin. }
  exists w1, w2. split; [exact Eadd |]. split; [exact Eupd | exact Ht].
Defined.

Lemma register_unregister_ioevent_round_trip_witness :
  (RegisterIoEvent willing_kernel 13 0 10%nat kIoResourceTypeMmio 0xc004 2 2
     ≫= UnregisterIoEvent_event willing_kernel) example_world
  = Ok tt
      (with_kvm_requests
         (λ rs, rs ++ [KVM_IOEVENTFD 2 0xc004 2 13 KVM_IOEVENTFD_FLAG_DATAMATCH;
                       KVM_IOEVENTFD 2 0xc004 2 13
                         (Z.lor KVM_IOEVENTFD_FLAG_DATAMATCH
                                KVM_IOEVENTFD_FLAG_DEASSIGN)])
         example_world).
Proof.
  apply (register_unregister_ioevent_round_trip willing_kernel 13 0 10%nat
           kIoResourceTypeMmio 0xc004 2 2 example_world willing_kernel_accepts).
  - intros Hin. apply elem_of_cons in Hin as [Heq | Hin];
      [discriminate Heq | inversion Hin].
  - intros e Hin Hfd.
    apply elem_of_cons in Hin as [-> | Hin]; [discriminate Hfd | inversion Hin].
Defined.

(** The live event of device 10 at 0xc000 is an MMIO event: a PIO event
    registered there is the one the lookup finds. *)
Lemma unregister_by_address_finds_registered_witness :
  (RegisterIoEvent willing_kernel 13 0 10%nat kIoResourceTypePio 0xc000 2 1;;
   UnregisterIoEvent willing_kernel 10%nat kIoResourceTypePio 0xc000) example_world
  = (RegisterIoEvent willing_kernel 13 0 10%nat kIoResourceTypePio 0xc000 2 1
       ≫= UnregisterIoEvent_event willing_kernel) example_world.
Proof.
  apply (unregister_by_address_finds_registered willing_kernel 13 0 10%nat
           kIoResourceTypePio 0xc000 2 1 example_world).
  intros e Hin (_ & _ & Hkind).
  apply elem_of_cons in Hin as [-> | Hin]; [discriminate Hkind | inversion Hin].
Defined.

Lemma ioevent_is_delivered_witness :
  ∃ w',
    IoEvent_callback surviving_iterator zero_device ioapic_kick example_world = Ok tt w'
    ∧ device_calls w'
      = [Write 7%nat (mmio 0xfec00000 0x1000 "ioapic") 0x10 0 4 [x44; x33; x22; x11]].
Proof.
  destruct (ioevent_is_delivered surviving_iterator zero_device ioapic_kick example_world 1 ioapic)
    as [Hmmio _]; [simpl; lia .. |].
  destruct (Hmmio eq_refl) as (w' & E & Hcalls & _).
  { split; [reflexivity |]. split; [reflexivity |].
    intros [|j] h' Hj; [intros [= <-]; reflexivity | lia]. }
  exists w'. split; [exact E | exact Hcalls].
Defined.

Lemma unhandled_pio_ioevent_overwrites_datamatch_witness :
  ∃ w',
    IoEvent_callback surviving_iterator zero_device stray_doorbell example_world = Ok tt w'
    ∧ device_calls w' = []
    ∧ event_datamatch
        (with_datamatch (memset (datamatch_bytes stray_doorbell) xff 2) stray_doorbell)
      = 0xffff.
Proof.
  destruct (unhandled_pio_ioevent_overwrites_datamatch surviving_iterator zero_device stray_doorbell
              example_world) as (w' & E & Hcalls & _ & Hvalue);
    [reflexivity | simpl; lia | simpl; lia | exact example_world_pio_hole |].
  exists w'. split; [exact E |]. split; [exact Hcalls | exact Hvalue].
Defined.

(** * The registry of devices *)

Lemma elem_of_set_insert (x d : Device) (devices : list Device) :
  x ∈ set_insert d devices ↔ x = d ∨ x ∈ devices.
Proof.
  induction devices as [|y rest IH]; simpl.
  - rewrite list_elem_of_singleton. split; [auto |].
    intros [-> | H]; [reflexivity | inversion H].
  - destruct (d <? y)%nat.
    + apply elem_of_cons.
    + destruct (d =? y)%nat eqn:Heq.
      * apply Nat.eqb_eq in Heq as ->. rewrite elem_of_cons. tauto.
      * rewrite !elem_of_cons, IH. tauto.
Qed.

Lemma elem_of_set_erase (x d : Device) (devices : list Device) :
  x ∈ set_erase d devices ↔ x ≠ d ∧ x ∈ devices.
Proof. unfold set_erase. rewrite list_elem_of_filter. reflexivity. Qed.

Section RegistryProperties.

Variable pci : Device → option (Z * Z).
Hypothesis typed : pci_typed pci.

Lemma typed_coordinates (d : Device) (bus devfn : Z) :
  pci d = Some (bus, devfn) → uint16_t bus = bus ∧ uint8_t devfn = devfn.
Proof.
  intros H. destruct (typed d bus devfn H) as [Hb Hf].
  unfold uint16_t, uint8_t. now rewrite !Z.mod_small.
Qed.

Lemma LookupPciDevice_Some (bus devfn : Z) (devices : list Device) (d : Device) :
  LookupPciDevice pci bus devfn devices = Some d →
  d ∈ devices ∧ pci d = Some (uint16_t bus, uint8_t devfn).
Proof.
  unfold LookupPciDevice. cbn zeta. intros H.
  apply fmap_Some in H as ([i x] & Hf & ->).
  apply list_find_Some in Hf as (Hl & Hp & _).
  split; [eapply list_elem_of_lookup_2; eauto | exact Hp].
Qed.

Lemma LookupPciDevice_None (bus devfn : Z) (devices : list Device) :
  LookupPciDevice pci bus devfn devices = None
  ↔ ∀ d, d ∈ devices → pci d ≠ Some (uint16_t bus, uint8_t devfn).
Proof.
  unfold LookupPciDevice. cbn zeta.
  rewrite fmap_None, list_find_None, Forall_forall. reflexivity.
Qed.

Lemma RegisterDevice_inr (d : Device) (devices devices' : list Device) :
  RegisterDevice pci d devices = inr devices' →
  devices' = set_insert d devices
  ∧ ∀ d' c, d' ∈ devices → pci d = Some c → pci d' ≠ Some c.
Proof.
  unfold RegisterDevice. destruct (pci d) as [[bus devfn]|] eqn:Hd.
  - destruct (LookupPciDevice pci bus devfn devices) eqn:Hl; [discriminate |].
    intros [= <-]. split; [reflexivity |]. intros d' c Hin [= <-].
    destruct (typed_coordinates _ _ _ Hd) as [Hb Hf].
    rewrite LookupPciDevice_None in Hl. rewrite <- Hb, <- Hf. now apply Hl.
  - intros [= <-]. split; [reflexivity |]. intros d' c _ [=].
Qed.

Lemma RegisterDevice_unique (d : Device) (devices devices' : list Device) :
  pci_unique pci devices →
  RegisterDevice pci d devices = inr devices' →
  pci_unique pci devices'.
Proof.
  intros Hu Hr. apply RegisterDevice_inr in Hr as [-> Hfree].
  intros d1 d2 c Hin1 Hin2 H1 H2.
  apply elem_of_set_insert in Hin1 as [-> | Hin1];
    apply elem_of_set_insert in Hin2 as [-> | Hin2].
  - reflexivity.
  - now destruct (Hfree d2 c Hin2 H1).
  - now destruct (Hfree d1 c Hin1 H2).
  - exact (Hu d1 d2 c Hin1 Hin2 H1 H2).
Qed.

Lemma UnregisterDevice_unique (d : Device) (devices : list Device) :
  pci_unique pci devices → pci_unique pci (UnregisterDevice d devices).
Proof.
  intros Hu d1 d2 c Hin1 Hin2.
  apply elem_of_set_erase in Hin1 as [_ Hin1].
  apply elem_of_set_erase in Hin2 as [_ Hin2].
  now apply Hu.
Qed.

Lemma registry_ops_unique (ops : list RegistryOp) (devices devices' : list Device) :
  pci_unique pci devices →
  registry_ops pci ops devices = inr devices' →
  pci_unique pci devices'.
Proof.
  revert devices. induction ops as [|op ops IH]; intros devices Hu; simpl.
  - now intros [= <-].
  - unfold mbind, Fallible_bind.
    destruct (registry_op pci op devices) as [msg | devices1] eqn:Hop; [discriminate |].
    apply IH. destruct op as [d | d]; simpl in Hop.
    + exact (RegisterDevice_unique _ _ _ Hu Hop).
    + injection Hop as <-. now apply UnregisterDevice_unique.
Qed.

Lemma unique_lookup (devices : list Device) (d : Device) (bus devfn : Z) :
  pci_unique pci devices →
  d ∈ devices → pci d = Some (bus, devfn) →
  LookupPciDevice pci bus devfn devices = Some d.
Proof.
  intros Hu Hin Hd. destruct (typed_coordinates _ _ _ Hd) as [Hb Hf].
  destruct (LookupPciDevice pci bus devfn devices) as [d'|] eqn:Hl.
  - apply LookupPciDevice_Some in Hl as [Hin' Hd']. rewrite Hb, Hf in Hd'.
    f_equal. exact (Hu d' d _ Hin' Hin Hd' Hd).
  - rewrite LookupPciDevice_None in Hl. destruct (Hl d Hin). now rewrite Hb, Hf.
Qed.

(** X16: no two registered devices share a PCI function.  Whatever
    devices were registered and unregistered since the manager was
    created, if none of the calls was fatal then the registered devices
    that are PCI devices have pairwise different (bus, function) pairs,
    and [LookupPciDevice] at the pair of a registered device returns
    that device. *)
Theorem registered_pci_functions_are_unique (ops : list RegistryOp)
    (devices : list Device) :
  registry_ops pci ops [] = inr devices →
  pci_unique pci devices
  ∧ ∀ d bus devfn,
      d ∈ devices → pci d = Some (bus, devfn) →
      LookupPciDevice pci bus devfn devices = Some d.
Proof.
  intros Hrun.
  assert (pci_unique pci devices) as Hu.
  { apply (registry_ops_unique ops [] devices); [| exact Hrun].
    intros d1 d2 c Hin. inversion Hin. }
  split; [exact Hu |]. intros d bus devfn. now apply unique_lookup.
Qed.

(** X17: when [RegisterDevice] is fatal.  A PCI device is refused, with
    the registry left as it is, exactly when a registered device has its
    bus and function, be it the device itself: registering a PCI device
    a second time is fatal.  Every other registration returns, with the
    device registered and nothing else added or lost; a device that is
    not a PCI device may be registered again and again. *)
Theorem register_device_conflict (d : Device) (devices : list Device) :
  ((∃ d' c, d' ∈ devices ∧ pci d = Some c ∧ pci d' = Some c) →
   RegisterDevice pci d devices = inl "PCI device function conflicts"%string)
  ∧ ((∀ d' c, d' ∈ devices → pci d = Some c → pci d' ≠ Some c) →
     ∃ devices',
       RegisterDevice pci d devices = inr devices'
       ∧ ∀ x, x ∈ devices' ↔ x = d ∨ x ∈ devices).
Proof.
  split.
  - intros (d' & [bus devfn] & Hin & Hd & Hd'). unfold RegisterDevice. rewrite Hd.
    destruct (LookupPciDevice pci bus devfn devices) eqn:Hl; [reflexivity |].
    rewrite LookupPciDevice_None in Hl. destruct (Hl d' Hin).
    destruct (typed_coordinates _ _ _ Hd) as [-> ->]. exact Hd'.
  - intros Hfree. exists (set_insert d devices). split.
    + unfold RegisterDevice. destruct (pci d) as [[bus devfn]|] eqn:Hd; [| reflexivity].
      destruct (LookupPciDevice pci bus devfn devices) as [d'|] eqn:Hl; [| reflexivity].
      apply LookupPciDevice_Some in Hl as [Hin Hd'].
      destruct (typed_coordinates _ _ _ Hd) as [Hb Hf]. rewrite Hb, Hf in Hd'.
      destruct (Hfree d' _ Hin eq_refl Hd').
    + intros x. apply elem_of_set_insert.
Qed.

(** X18: unregistering a device frees its PCI function.  In a registry
    without conflict, once a PCI device is unregistered another device
    with the same bus and function registers without error, and it is
    the device [LookupPciDevice] returns there from then on. *)
Theorem unregister_frees_pci_function (d d' : Device) (bus devfn : Z)
    (devices : list Device) :
  pci_unique pci devices →
  d ∈ devices →
  pci d = Some (bus, devfn) →
  pci d' = Some (bus, devfn) →
  ∃ devices',
    RegisterDevice pci d' (UnregisterDevice d devices) = inr devices'
    ∧ d' ∈ devices'
    ∧ (d' ≠ d → d ∉ devices')
    ∧ LookupPciDevice pci bus devfn devices' = Some d'.
Proof.
  intros Hu Hin Hd Hd'.
  assert (RegisterDevice pci d' (UnregisterDevice d devices)
          = inr (set_insert d' (UnregisterDevice d devices))) as Hr.
  { unfold RegisterDevice. rewrite Hd'.
    destruct (LookupPciDevice pci bus devfn (UnregisterDevice d devices))
      as [x|] eqn:Hl; [| reflexivity].
    apply LookupPciDevice_Some in Hl as [Hx Hpx].
    destruct (typed_coordinates _ _ _ Hd) as [Hb Hf]. rewrite Hb, Hf in Hpx.
    apply elem_of_set_erase in Hx as [Hne Hx].
    destruct Hne. exact (Hu x d _ Hx Hin Hpx Hd). }
  exists (set_insert d' (UnregisterDevice d devices)).
  split; [exact Hr |]. split; [apply elem_of_set_insert; now left |]. split.
  - intros Hne Hd_in. apply elem_of_set_insert in Hd_in as [-> | Hd_in]; [now destruct Hne |].
    apply elem_of_set_erase in Hd_in as [Hdd _]. now destruct Hdd.
  - apply unique_lookup; [| apply elem_of_set_insert; now left | exact Hd'].
    eapply RegisterDevice_unique; [| exact Hr]. now apply UnregisterDevice_unique.
Qed.

End RegistryProperties.

Lemma example_pci_typed : pci_typed example_pci.
Proof.
  intros [|[|[|[|d]]]] bus devfn; simpl; intros [= <- <-]; lia.
Defined.

(** Device 3 asks for the function of device 1 and gets it once device 1
    is gone. *)
Lemma registered_pci_functions_are_unique_witness :
  registry_ops example_pci
    [DoRegister 1%nat; DoRegister 2%nat; DoRegister 0%nat; DoUnregister 1%nat;
     DoRegister 3%nat] []
  = inr [0%nat; 2%nat; 3%nat]
  ∧ LookupPciDevice example_pci 0 8 [0%nat; 2%nat; 3%nat] = Some 3%nat.
Proof.
  split; [reflexivity |].
  destruct (registered_pci_functions_are_unique example_pci example_pci_typed
              [DoRegister 1%nat; DoRegister 2%nat; DoRegister 0%nat; DoUnregister 1%nat;
               DoRegister 3%nat] [0%nat; 2%nat; 3%nat] eq_refl) as [_ Hlookup].
  apply Hlookup; [| reflexivity].
  apply elem_of_cons. right. apply elem_of_cons. right. apply elem_of_cons. now left.
Defined.

Lemma register_device_conflict_witness :
  RegisterDevice example_pci 3%nat [1%nat; 2%nat]
  = inl "PCI device function conflicts"%string
  ∧ RegisterDevice example_pci 1%nat [1%nat; 2%nat]
    = inl "PCI device function conflicts"%string.
Proof.
  split.
  - apply (register_device_conflict example_pci example_pci_typed 3%nat [1%nat; 2%nat]).
    exists 1%nat, (0, 8). split; [apply elem_of_cons; now left | split; reflexivity].
  - apply (register_device_conflict example_pci example_pci_typed 1%nat [1%nat; 2%nat]).
    exists 1%nat, (0, 8). split; [apply elem_of_cons; now left | split; reflexivity].
Defined.

Lemma unregister_frees_pci_function_witness :
  ∃ devices',
    RegisterDevice example_pci 3%nat (UnregisterDevice 1%nat [1%nat; 2%nat])
    = inr devices'
    ∧ LookupPciDevice example_pci 0 8 devices' = Some 3%nat.
Proof.
  destruct (unregister_frees_pci_function example_pci example_pci_typed 1%nat 3%nat 0 8
              [1%nat; 2%nat]) as (devices' & Hr & _ & _ & Hl).
  { intros d1 d2 c Hin1 Hin2 H1 H2.
    repeat (apply elem_of_cons in Hin1 as [-> | Hin1]); try (inversion Hin1; fail);
      repeat (apply elem_of_cons in Hin2 as [-> | Hin2]); try (inversion Hin2; fail);
      try reflexivity; simpl in H1, H2; congruence. }
  { apply elem_of_cons. now left. }
  { reflexivity. }
  { reflexivity. }
  exists devices'. split; [exact Hr | exact Hl].
Defined.

(** * The machine *)

Lemma filter_shutdown_starts (vcpus : list nat) :
  List.filter shutdown_op (VcpuStart <$> vcpus) = [].
Proof. induction vcpus as [|v vcpus IH]; [reflexivity | exact IH]. Qed.

Lemma filter_shutdown_resets (vcpus : list nat) :
  List.filter shutdown_op (VcpuScheduleReset <$> vcpus) = [].
Proof. induction vcpus as [|v vcpus IH]; [reflexivity | exact IH]. Qed.

Lemma filter_shutdown_kicks (vcpus : list nat) :
  List.filter shutdown_op (VcpuKick <$> vcpus) = VcpuKick <$> vcpus.
Proof.
  induction vcpus as [|v vcpus IH]; [reflexivity |]. simpl. f_equal. exact IH.
Qed.

Lemma machine_call_not_quit (call : MachineCall) (m : Machine) :
  call ≠ CallQuit →
  valid_ (machine_call call m) = valid_ m
  ∧ vcpus_ (machine_call call m) = vcpus_ m
  ∧ shutdown_ops (machine_call call m) = shutdown_ops m.
Proof.
  intros Hcall. destruct call; [| now destruct Hcall |];
    (split; [reflexivity |]; split; [reflexivity |]);
    unfold shutdown_ops; simpl; rewrite !List.filter_app.
  - rewrite filter_shutdown_starts. simpl. now rewrite app_nil_r.
  - destruct (debug_ m); simpl; rewrite filter_shutdown_resets; now rewrite app_nil_r.
Qed.

(** X19: a machine is shut down once.  Over any sequence of [Run],
    [Quit] and [Reset] calls, the vCPUs are kicked and the I/O thread is
    stopped by the first [Quit] that finds the machine valid and by no
    other call: a second [Quit] does nothing, and nothing makes an
    invalid machine valid again. *)
Theorem quit_stops_threads_once (calls : list MachineCall) (m : Machine) :
  valid_ (machine_calls calls m) = valid_ m && negb (quits calls)
  ∧ shutdown_ops (machine_calls calls m)
    = shutdown_ops m
      ++ (if valid_ m && quits calls
          then (VcpuKick <$> vcpus_ m) ++ [IoThreadStop]
          else []).
Proof.
  revert m. induction calls as [|call calls IH]; intros m.
  - simpl. rewrite andb_true_r, andb_false_r, app_nil_r. now split.
  - simpl machine_calls. destruct (IH (machine_call call m)) as [IHv IHs].
    rewrite IHv, IHs.
    assert (call = CallQuit ∨ call ≠ CallQuit) as [-> | Hcall]
      by (destruct call; (now left) || (right; discriminate)).
    + unfold quits. simpl existsb. rewrite andb_true_r. fold (quits calls).
      unfold machine_call, Quit, shutdown_ops.
      destruct (valid_ m) eqn:Hvalid; simpl.
      * rewrite !List.filter_app, filter_shutdown_kicks. simpl.
        rewrite app_nil_r. now split.
      * rewrite Hvalid. now split.
    + destruct (machine_call_not_quit call m Hcall) as (-> & -> & ->).
      assert (quits (call :: calls) = quits calls) as ->; [| now split].
      unfold quits. simpl. now destruct call.
Qed.

Lemma machine_calls_backup (calls : list MachineCall) (m : Machine) :
  bios_backup_ (machine_calls calls m) = bios_backup_ m
  ∧ bios_size_ (machine_calls calls m) = bios_size_ m.
Proof.
  revert m. induction calls as [|call calls IH]; intros m; [now split |].
  simpl. destruct (IH (machine_call call m)) as [-> ->].
  destruct call; simpl; [now split | | now split].
  unfold Quit. now destruct (valid_ m).
Qed.

(** X20: a reset brings the BIOS back.  After [LoadBiosFile], whatever
    the guest has written over the mapped copy and whatever [Run],
    [Quit] and [Reset] calls were made in between, [Reset] leaves in the
    mapped copy the bytes of the file. *)
Theorem reset_restores_bios (fd : Z) (content scribbled : list byte)
    (calls : list MachineCall) (m m1 : Machine) :
  LoadBiosFile fd content m = inr m1 →
  length scribbled = length content →
  bios_data_ (Reset (with_bios_data scribbled (machine_calls calls m1))) = content.
Proof.
  unfold LoadBiosFile. destruct (negb (0 <? fd)); [discriminate |].
  intros [= <-] Hlen. unfold Reset. simpl.
  destruct (machine_calls_backup calls
              {| valid_ := valid_ m; debug_ := debug_ m; vcpus_ := vcpus_ m;
                 bios_size_ := Z.of_nat (length content);
                 bios_data_ := content; bios_backup_ := content;
                 mappings :=
                   mappings m
                   ++ [{| map_base := uint64_t (0x100000 - Z.of_nat (length content));
                          map_size := Z.of_nat (length content);
                          map_host := true; map_type := kMemoryTypeRam;
                          map_name := "SeaBIOS" |};
                       {| map_base := uint64_t (0x100000000 - Z.of_nat (length content));
                          map_size := Z.of_nat (length content);
                          map_host := true; map_type := kMemoryTypeRam;
                          map_name := "SeaBIOS" |}];
                 arch_requests := arch_requests m;
                 thread_ops := thread_ops m |}) as [-> ->].
  unfold memcpy. simpl. rewrite Nat2Z.id.
  rewrite firstn_all, drop_ge by lia. apply app_nil_r.
Qed.

Section MachineSetupProperties.

Variable vm_ioctl : list ArchRequest → ArchRequest → Z.
Hypothesis accepts : vm_accepts vm_ioctl.

Lemma arch_ioctl_accepts (req : ArchRequest) (msg : string) (m : Machine) :
  arch_ioctl vm_ioctl req msg m = inr (with_arch_requests (λ rs, rs ++ [req]) m).
Proof.
  unfold arch_ioctl. now rewrite (proj2 (Z.ltb_ge _ _) (accepts _ _)).
Qed.

(** X21: where the BIOS and the reserved pages lie.  With a BIOS file of
    at most 16 MiB and a kernel that accepts the requests, the machine
    asks for three mappings: the BIOS a first time, the BIOS a second
    time ending at 4 GiB, and four reserved pages at 0xfeffc000 that end
    where a 16 MiB BIOS begins, so that the two never overlap; the
    identity map is set at the first of these pages and the TSS at the
    second.  The first mapping of the BIOS ends at 1 MiB when the file
    has at most 1 MiB; beyond that its base wraps around 2^64. *)
Theorem bios_and_reserved_pages (fd : Z) (content : list byte) (m : Machine) :
  0 < fd →
  Z.of_nat (length content) ≤ 16 * 2 ^ 20 →
  let size := Z.of_nat (length content) in
  ∃ m' low high reserved,
    LoadBiosFile fd content m ≫= CreateArchRelated vm_ioctl = inr m'
    ∧ mappings m' = mappings m ++ [low; high; reserved]
    ∧ map_size low = size ∧ map_size high = size
    ∧ map_base high + size = 2 ^ 32
    ∧ map_base reserved = 0xfeffc000
    ∧ map_size reserved = 4 * 4096
    ∧ map_type reserved = kMemoryTypeReserved
    ∧ map_base reserved + map_size reserved ≤ map_base high
    ∧ (size ≤ 2 ^ 20 → map_base low + size = 2 ^ 20)
    ∧ (2 ^ 20 < size → map_base low = 2 ^ 64 + 2 ^ 20 - size)
    ∧ arch_requests m'
      = arch_requests m
        ++ [KVM_SET_IDENTITY_MAP_ADDR 0xfeffc000; KVM_SET_TSS_ADDR 0xfeffd000;
            KVM_CREATE_IRQCHIP; KVM_CREATE_PIT2].
Proof.
  intros Hfd Hsize size.
  unfold LoadBiosFile. rewrite (proj2 (Z.ltb_lt _ _) Hfd). cbn [negb].
  unfold mbind at 1, Fallible_bind at 1.
  unfold CreateArchRelated.
  rewrite arch_ioctl_accepts. unfold mbind at 1, Fallible_bind at 1.
  rewrite arch_ioctl_accepts. unfold mbind at 1, Fallible_bind at 1.
  cbn zeta.
  rewrite arch_ioctl_accepts. unfold mbind at 1, Fallible_bind at 1.
  rewrite arch_ioctl_accepts.
  eexists _, _, _, _. split; [reflexivity |].
  split; [simpl; rewrite <- app_assoc; reflexivity |].
  fold size.
  assert (0 ≤ size) by (unfold size; lia).
  assert (uint64_t (4294967296 - size) = 4294967296 - size) as Hhigh
    by (unfold uint64_t; apply Z.mod_small; lia).
  simpl. fold size. rewrite Hhigh.
  repeat (split; [reflexivity || lia |]).
  split; [| split; [| split]].
  - unfold X86_EPT_IDENTITY_BASE, PAGE_SIZE. lia.
  - intros Hsmall. unfold uint64_t. rewrite Z.mod_small by lia. lia.
  - intros Hbig. unfold uint64_t.
    rewrite <- (Z_mod_plus_full _ 1). rewrite Z.mod_small by lia. lia.
  - rewrite <- !app_assoc. reflexivity.
Qed.

End MachineSetupProperties.

Lemma willing_vm_accepts : vm_accepts willing_vm.
Proof. intros history req. unfold willing_vm. lia. Defined.

Lemma reset_restores_bios_witness :
  ∃ m1,
    LoadBiosFile 3 example_bios example_machine = inr m1
    ∧ bios_data_
        (Reset (with_bios_data [x00; x00; x00; x00; x00]
                  (machine_calls [CallRun; CallReset] m1)))
      = example_bios.
Proof.
  eexists. split; [reflexivity |].
  apply (reset_restores_bios 3 example_bios [x00; x00; x00; x00; x00]
           [CallRun; CallReset] example_machine); reflexivity.
Defined.

Lemma bios_and_reserved_pages_witness :
  ∃ m',
    LoadBiosFile 3 example_bios example_machine ≫= CreateArchRelated willing_vm
    = inr m'
    ∧ map_base <$> mappings m' = [0xffffb; 0xfffffffb; 0xfeffc000].
Proof.
  destruct (bios_and_reserved_pages willing_vm willing_vm_accepts 3 example_bios
              example_machine) as (m' & low & high & reserved & E & Hmap & _ & _
                                     & Hhigh & Hres & _ & _ & _ & Hlow & _);
    [lia | simpl; lia |].
  exists m'. split; [exact E |]. rewrite Hmap. simpl in Hhigh, Hlow |- *.
  f_equal; [lia |]. f_equal; [lia |]. f_equal. exact Hres.
Defined.

(** * Raw disk images *)

Section RawImageProperties.

Variable open : string → OpenFlags → Z.
Variable st_size : string → Z.

(** X22: what [Initialize] makes of a file.  The file is opened
    read-only for a read-only image and read-write otherwise, and a
    negative descriptor is fatal.  Otherwise the image has blocks of 512
    bytes and as many of them as fit in the file: the bytes after the
    last whole block, up to 511, are not part of the disk. *)
Theorem raw_image_capacity (path : string) (readonly : bool) (image : RawImage) :
  0 ≤ st_size path < 2 ^ 63 →
  let fd := open path (if readonly then O_RDONLY else O_RDWR) in
  (fd < 0 →
   Initialize open st_size path readonly image = inl "disk file not found"%string)
  ∧ (0 ≤ fd →
     ∃ image',
       Initialize open st_size path readonly image = inr image'
       ∧ fd_ image' = fd
       ∧ readonly_ image' = readonly
       ∧ block_size (information image') = 512
       ∧ 512 * total_blocks (information image') ≤ st_size path
         < 512 * (total_blocks (information image') + 1)).
Proof.
  intros Hsize fd. unfold Initialize.
  assert ((if readonly then open path O_RDONLY else open path O_RDWR) = fd) as ->
    by (unfold fd; now destruct readonly).
  split; intros Hfd.
  - now rewrite (proj2 (Z.ltb_lt _ _) Hfd).
  - rewrite (proj2 (Z.ltb_ge _ _) Hfd). eexists. split; [reflexivity |].
    simpl. unfold uint64_t. rewrite Z.mod_small by lia.
    repeat (split; [reflexivity |]).
    pose proof (Z.mul_div_le (st_size path) 512 ltac:(lia)).
    pose proof (Z.mul_succ_div_gt (st_size path) 512 ltac:(lia)). lia.
Qed.

End RawImageProperties.

Lemma image_call_keeps (call : ImageCall) (image : RawImage) :
  fd_ (image_call call image) = fd_ image
  ∧ readonly_ (image_call call image) = readonly_ image.
Proof.
  destruct image as [fd size blocks [|] reqs done]; now destruct call.
Qed.

(** X23: a read-only image never writes.  Of any sequence of [Read],
    [Write] and [Flush] calls on a read-only image, the I/O thread gets
    the reads alone, in order, unchecked against the size of the disk;
    every write and flush is answered at once with result 0, as if it
    had been done.  On a writable image every call is passed to the I/O
    thread, in order, and the image answers none itself. *)
Theorem readonly_image_never_writes (calls : list ImageCall) (image : RawImage) :
  (readonly_ image = true →
   requests (image_calls calls image)
   = requests image ++ reads_of (fd_ image) calls
   ∧ completions (image_calls calls image)
     = completions image ++ acknowledged calls)
  ∧ (readonly_ image = false →
     requests (image_calls calls image)
     = requests image ++ (forwarded (fd_ image) <$> calls)
     ∧ completions (image_calls calls image) = completions image).
Proof.
  revert image. induction calls as [|call calls IH]; intros image.
  - simpl. rewrite !app_nil_r. now repeat split.
  - simpl image_calls.
    destruct (IH (image_call call image)) as [IHro IHrw].
    destruct (image_call_keeps call image) as [Hfd Hro].
    rewrite Hfd, Hro in *.
    split; intros Hmode.
    + destruct (IHro Hmode) as [-> ->].
      destruct call; simpl; unfold RawImage_Write, RawImage_Flush;
        rewrite ?Hmode; simpl; rewrite <- ?app_assoc; now split.
    + destruct (IHrw Hmode) as [-> ->].
      destruct call; simpl; unfold RawImage_Write, RawImage_Flush;
        rewrite ?Hmode; simpl; rewrite <- ?app_assoc; now split.
Qed.

(** The last 488 bytes of a file of 1000 bytes are cut off. *)
Lemma raw_image_capacity_witness :
  ∃ image',
    Initialize example_open example_st_size "disk.img" true new_RawImage = inr image'
    ∧ total_blocks (information image') = 1.
Proof.
  destruct (raw_image_capacity example_open example_st_size "disk.img" true
              new_RawImage) as [_ Hopened]; [unfold example_st_size; lia |].
  destruct Hopened as (image' & E & _ & _ & _ & Hblocks);
    [unfold example_open; lia |].
  exists image'. split; [exact E |]. unfold example_st_size in Hblocks. lia.
Defined.

Lemma readonly_image_never_writes_witness :
  requests (image_calls [CallWrite 0 512; CallRead 512 512; CallFlush] example_image)
  = [IoRead 5 512 512]
  ∧ completions
      (image_calls [CallWrite 0 512; CallRead 512 512; CallFlush] example_image)
    = [0; 0].
Proof.
  destruct (readonly_image_never_writes [CallWrite 0 512; CallRead 512 512; CallFlush]
              example_image) as [Hro _].
  exact (Hro eq_refl).
Defined.
